(** * A shallow embedding of [zotify/utils.py]

    The helpers modelled here are the pure string functions
    ([fmt_seconds], [fix_filename], [regex_input_for_urls]) and the
    archive/manifest helpers, which act on a small model of the file
    system threaded through the calls as explicit state.

    Python [str] values are modelled as Rocq [string]s (ASCII characters);
    Python [int] as [Z]; the float argument of [fmt_seconds] as a rational
    [Q] (every finite float is one). *)

From Stdlib Require Import ZArith QArith Qround List Bool Lia.
From Stdlib Require Import Strings.String Strings.Ascii Numbers.DecimalString.
Import ListNotations.

Open Scope bool_scope.
Open Scope string_scope.

(* ------------------------------------------------------------------ *)
(** ** Python string primitives *)

Module Py.

(** [str(i)] for a Python [int]. *)
Definition str_int (z : Z) : string :=
  NilEmpty.string_of_int (Z.to_int z).

Fixpoint zeros (n : nat) : string :=
  match n with
  | O => ""
  | S k => String "0" (zeros k)
  end.

(** [s.zfill(w)]: pad on the left with '0' up to width [w]; a leading sign
    stays in front of the padding. *)
Definition zfill (w : nat) (s : string) : string :=
  let n := String.length s in
  if Nat.leb w n then s
  else match s with
       | String c r =>
           if Ascii.eqb c "+"%char || Ascii.eqb c "-"%char
           then String c (zeros (w - n) ++ r)
           else zeros (w - n) ++ s
       | EmptyString => zeros w
       end.

(** [c.isspace()] for an ASCII character: space, \t \n \v \f \r and the
    separators \x1c to \x1f.  This is also what the [\s] class of [re]
    matches on an ASCII [str]. *)
Definition is_space (c : ascii) : bool :=
  let n := nat_of_ascii c in
  (Nat.eqb n 32) || ((9 <=? n)%nat && (n <=? 13)%nat)
  || ((28 <=? n)%nat && (n <=? 31)%nat).

Fixpoint lstrip (s : string) : string :=
  match s with
  | EmptyString => EmptyString
  | String c r => if is_space c then lstrip r else s
  end.

Fixpoint rstrip (s : string) : string :=
  match s with
  | EmptyString => EmptyString
  | String c r =>
      let r' := rstrip r in
      if String.eqb r' "" && is_space c then "" else String c r'
  end.

(** [s.strip()] *)
Definition strip (s : string) : string := rstrip (lstrip s).

(** [s.split('\t')[0]] *)
Fixpoint split_tab_0 (s : string) : string :=
  match s with
  | EmptyString => EmptyString
  | String c r => if Ascii.eqb c "009"%char then "" else String c (split_tab_0 r)
  end.

End Py.

(* ------------------------------------------------------------------ *)
(** ** [fmt_seconds] *)

(** [math.floor(secs)] of the float argument is [Qfloor].  [val /= 60]
    is a float division; its numerator is a multiple of 60, so it is written
    with [Z.div], which is what Python computes while the magnitudes stay
    below [2^53]: beyond that the float quotients and the following
    [val -= m] are rounded, which is not modelled, and the properties below
    bound the argument accordingly.  Python's [%] with a positive divisor
    is [Z.modulo]. *)
Definition fmt_seconds (secs : Q) : string :=
  let val := Qfloor secs in
  let s := Z.modulo val 60 in
  let val := Z.div (val - s) 60 in
  let m := Z.modulo val 60 in
  let val := Z.div (val - m) 60 in
  let h := val in
  if Z.eqb h 0 && Z.eqb m 0 && Z.eqb s 0 then "0s"
  else if Z.eqb h 0 && Z.eqb m 0 then Py.zfill 2 (Py.str_int s ++ "s")
  else if Z.eqb h 0 then
    Py.zfill 2 (Py.str_int m) ++ ":" ++ Py.zfill 2 (Py.str_int s)
  else
    Py.zfill 2 (Py.str_int h) ++ ":" ++ Py.zfill 2 (Py.str_int m) ++ ":"
      ++ Py.zfill 2 (Py.str_int s).

Example fmt_seconds_0 : fmt_seconds 0 = "0s". Proof. reflexivity. Qed.
Example fmt_seconds_5 : fmt_seconds 5 = "5s". Proof. reflexivity. Qed.
Example fmt_seconds_65 : fmt_seconds 65 = "01:05". Proof. reflexivity. Qed.
Example fmt_seconds_3661 : fmt_seconds 3661 = "01:01:01". Proof. reflexivity. Qed.
Example fmt_seconds_59_9 : fmt_seconds (599 # 10) = "59s". Proof. reflexivity. Qed.

(* ------------------------------------------------------------------ *)
(** ** [fix_filename]

    [re.sub(PAT, "_", name, flags=re.IGNORECASE)] with
    [PAT = CLASS|^(AUX|COM[1-9]|CON|LPT[1-9]|NUL|PRN)(?![^.])|^\s|[\s.]$],
    where [CLASS] is the character class of [/ \ : | < > ? *], the double
    quote and the control characters [\0-\x1f].
    [re.sub] scans left to right; at each position the four alternatives are
    tried in order, a match is replaced by one ['_'] and scanning resumes
    after it.  [^] only holds at position 0 (no MULTILINE), so the second and
    third alternatives are only tried on the first character, and [$] holds
    at the end of the string or just before a final ["\n"]. *)

Module Sanitize.

(** the character class [CLASS] (the double quote is character 34) *)
Definition bad_char (c : ascii) : bool :=
  (nat_of_ascii c <? 32)%nat
  || existsb (Ascii.eqb c)
       ["/"; "\"; ":"; "|"; "<"; ">"; "034"; "?"; "*"]%char.

(** Python's [$]: end of string, or before a newline that ends it. *)
Definition dollar (r : string) : bool :=
  String.eqb r "" || String.eqb r (String "010" "").

(** case-insensitive comparison of an input character with an upper-case
    pattern character *)
Definition upper (c : ascii) : ascii :=
  let n := nat_of_ascii c in
  if (97 <=? n)%nat && (n <=? 122)%nat then ascii_of_nat (n - 32) else c.

Definition ci (c u : ascii) : bool := Ascii.eqb (upper c) u.

(** the literal [w] matched case-insensitively at the front of [s] *)
Fixpoint ci_prefix (w s : string) : option string :=
  match w, s with
  | EmptyString, _ => Some s
  | String u w', String c s' => if ci c u then ci_prefix w' s' else None
  | String _ _, EmptyString => None
  end.

(** [(?![^.])]: not followed by a character other than ['.'] *)
Definition lookahead_ok (r : string) : bool :=
  match r with
  | EmptyString => true
  | String c _ => Ascii.eqb c "."
  end.

Definition digit19 (c : ascii) : bool :=
  let n := nat_of_ascii c in (49 <=? n)%nat && (n <=? 57)%nat.

Definition orelse {A} (x : option A) (y : unit -> option A) : option A :=
  match x with Some a => Some a | None => y tt end.

(** one alternative [WORD(?![^.])] *)
Definition word_alt (w : string) (s : string) : option string :=
  match ci_prefix w s with
  | Some r => if lookahead_ok r then Some r else None
  | None => None
  end.

(** one alternative [WORD[1-9](?![^.])] *)
Definition word_digit_alt (w : string) (s : string) : option string :=
  match ci_prefix w s with
  | Some (String d r) => if digit19 d && lookahead_ok r then Some r else None
  | _ => None
  end.

(** [(AUX|COM[1-9]|CON|LPT[1-9]|NUL|PRN)(?![^.])] at the front of [s]:
    the rest of the input after the match *)
Definition match_reserved (s : string) : option string :=
  orelse (word_alt "AUX" s) (fun _ =>
  orelse (word_digit_alt "COM" s) (fun _ =>
  orelse (word_alt "CON" s) (fun _ =>
  orelse (word_digit_alt "LPT" s) (fun _ =>
  orelse (word_alt "NUL" s) (fun _ =>
  word_alt "PRN" s))))).

(** scanning from a position other than 0 *)
Fixpoint fix_tail (s : string) : string :=
  match s with
  | EmptyString => EmptyString
  | String c r =>
      if bad_char c then String "_" (fix_tail r)
      else if (Py.is_space c || Ascii.eqb c ".") && dollar r
      then String "_" (fix_tail r)
      else String c (fix_tail r)
  end.

Definition fix_filename (name : string) : string :=
  match name with
  | EmptyString => EmptyString
  | String c r =>
      if bad_char c then String "_" (fix_tail r)
      else match match_reserved name with
           | Some r' => String "_" (fix_tail r')
           | None =>
               if Py.is_space c then String "_" (fix_tail r)
               else if (Py.is_space c || Ascii.eqb c ".") && dollar r
               then String "_" (fix_tail r)
               else String c (fix_tail r)
           end
  end.

(** predicates used in the proofs below *)
Fixpoint no_bad (s : string) : bool :=
  match s with
  | EmptyString => true
  | String c r => negb (bad_char c) && no_bad r
  end.

(** the last character is neither whitespace nor ['.'] *)
Fixpoint last_ok (s : string) : bool :=
  match s with
  | EmptyString => true
  | String c EmptyString => negb (Py.is_space c || Ascii.eqb c ".")
  | String _ r => last_ok r
  end.

(** [t] is [s] with some characters replaced by ['_'] *)
Fixpoint marked (s t : string) : Prop :=
  match s, t with
  | EmptyString, EmptyString => True
  | String a s', String b t' => (b = a \/ b = "_"%char) /\ marked s' t'
  | _, _ => False
  end.

(** the doctests of [fix_filename] *)
Example doctest_1 : fix_filename "  COM1  " = "_ COM1 _". Proof. reflexivity. Qed.
Example doctest_2 : fix_filename "COM10" = "COM10". Proof. reflexivity. Qed.
Example doctest_3 : fix_filename "COM1," = "COM1,". Proof. reflexivity. Qed.
Example doctest_4 : fix_filename "COM1.txt" = "_.txt". Proof. reflexivity. Qed.
Example doctest_5 :
  forallb (fun i => String.eqb (fix_filename (String (ascii_of_nat i) "")) "_")
          (seq 0 32) = true.
Proof. reflexivity. Qed.
Example fix_lower : fix_filename "nul" = "_". Proof. reflexivity. Qed.
Example fix_nl : fix_filename (String "a" (String "." (String "010" ""))) = "a__". Proof. reflexivity. Qed.

End Sanitize.

(* ------------------------------------------------------------------ *)
(** ** [regex_input_for_urls]

    The twelve patterns are [re.search]es anchored with [^] (position 0,
    no MULTILINE), so a search is a match at position 0.  They are written
    with backtracking matcher combinators in continuation-passing style: a
    matcher gets the rest of the input and a continuation for what follows,
    and tries its alternatives in the order Python's engine does (greedy
    [?] and [+] try the longer choice first, lazy [+?] the shorter). *)

Module Urls.

Section Combinators.
Context {A : Type}.

Definition matcher := string -> (string -> option A) -> option A.

(** a literal, case-sensitive *)
Fixpoint lit (w : string) : matcher :=
  fun s k =>
    match w, s with
    | EmptyString, _ => k s
    | String u w', String c s' => if Ascii.eqb c u then lit w' s' k else None
    | String _ _, EmptyString => None
    end.

(** [(?:M)?], greedy *)
Definition opt_greedy (m : matcher) : matcher :=
  fun s k => Sanitize.orelse (m s k) (fun _ => k s).

(** [[P]*] and [[P]+], greedy *)
Fixpoint star_greedy (p : ascii -> bool) (s : string) (k : string -> option A)
  : option A :=
  match s with
  | String c r =>
      if p c then Sanitize.orelse (star_greedy p r k) (fun _ => k s) else k s
  | EmptyString => k s
  end.

Definition plus_greedy (p : ascii -> bool) : matcher :=
  fun s k =>
    match s with
    | String c r => if p c then star_greedy p r k else None
    | EmptyString => None
    end.

(** [[P]*?] and [[P]+?], lazy *)
Fixpoint star_lazy (p : ascii -> bool) (s : string) (k : string -> option A)
  : option A :=
  Sanitize.orelse (k s) (fun _ =>
    match s with
    | String c r => if p c then star_lazy p r k else None
    | EmptyString => None
    end).

Definition plus_lazy (p : ascii -> bool) : matcher :=
  fun s k =>
    match s with
    | String c r => if p c then star_lazy p r k else None
    | EmptyString => None
    end.

(** [(?P<Name>[P]{n})]: exactly [n] characters, captured *)
Fixpoint take_n (n : nat) (p : ascii -> bool) (s : string)
  : option (string * string) :=
  match n with
  | O => Some (EmptyString, s)
  | S n' =>
      match s with
      | String c r =>
          if p c then
            match take_n n' p r with
            | Some (g, r') => Some (String c g, r')
            | None => None
            end
          else None
      | EmptyString => None
      end
  end.

Definition group (n : nat) (p : ascii -> bool) (s : string)
  (k : string -> string -> option A) : option A :=
  match take_n n p s with
  | Some (g, r) => k g r
  | None => None
  end.

End Combinators.

Definition in_range (lo hi : nat) (c : ascii) : bool :=
  (lo <=? nat_of_ascii c)%nat && (nat_of_ascii c <=? hi)%nat.

(** [[0-9a-zA-Z]] *)
Definition is_id_char (c : ascii) : bool :=
  in_range 48 57 c || in_range 97 122 c || in_range 65 90 c.

(** [\w] on ASCII *)
Definition is_word (c : ascii) : bool := is_id_char c || Ascii.eqb c "_".

(** [.] (no DOTALL) *)
Definition not_nl (c : ascii) : bool := negb (Ascii.eqb c "010").

(** [^spotify:TYPE:(?P<ID>[0-9a-zA-Z]{22})$] *)
Definition uri_search (ty s : string) : option string :=
  lit ("spotify:" ++ ty ++ ":") s (fun s =>
  group 22 is_id_char s (fun id s =>
  if Sanitize.dollar s then Some id else None)).

(** [(https?://)] *)
Definition scheme_part {A} : @matcher A :=
  fun s k => lit "http" s (fun s => opt_greedy (lit "s") s (fun s => lit "://" s k)).

(** [/intl-\w+] *)
Definition intl_part {A} : @matcher A :=
  fun s k => lit "/intl-" s (fun s => plus_greedy is_word s k).

(** [\?si=.+?] *)
Definition si_part {A} : @matcher A :=
  fun s k => lit "?si=" s (fun s => plus_lazy not_nl s k).

(** [open\.spotify\.com(?:/intl-\w+)?/TYPE/(?P<ID>[0-9a-zA-Z]{22})(\?si=.+?)?$] *)
Definition url_rest (ty s : string) : option string :=
  lit "open.spotify.com" s (fun s =>
  opt_greedy intl_part s (fun s =>
  lit ("/" ++ ty ++ "/") s (fun s =>
  group 22 is_id_char s (fun id s =>
  opt_greedy si_part s (fun s =>
  if Sanitize.dollar s then Some id else None))))).

(** [^(https?://)?open\.spotify\.com(?:/intl-\w+)?/TYPE/(?P<ID>[0-9a-zA-Z]{22})(\?si=.+?)?$] *)
Definition url_search (ty s : string) : option string :=
  opt_greedy scheme_part s (url_rest ty).

(** [(uri if uri is not None else url).group(...)] when one of them matched *)
Definition slot (ty s : string) : option string :=
  match uri_search ty s with
  | Some id => Some id
  | None => url_search ty s
  end.

Definition regex_input_for_urls (search_input : string)
  : option string * option string * option string * option string
    * option string * option string :=
  (slot "track" search_input, slot "album" search_input,
   slot "playlist" search_input, slot "episode" search_input,
   slot "show" search_input, slot "artist" search_input).

(** the resource types, in the order of the result tuple *)
Definition types : list string :=
  ["track"; "album"; "playlist"; "episode"; "show"; "artist"].

Definition slots (r : option string * option string * option string
                     * option string * option string * option string)
  : list (option string) :=
  let '(a, b, c, d, e, f) := r in [a; b; c; d; e; f].

Lemma slots_regex_input_for_urls (s : string) :
  slots (regex_input_for_urls s) = map (fun ty => slot ty s) types.
Proof. reflexivity. Qed.

Definition all_none (r : option string * option string * option string
                        * option string * option string * option string) : bool :=
  forallb (fun o => match o with None => true | Some _ => false end) (slots r).

Definition valid_id (id : string) : bool :=
  Nat.eqb (String.length id) 22 && forallb is_id_char (list_ascii_of_string id).

(** the result list with only the slot of [ty] set, to [id] *)
Definition only_slot (ty id : string) : list (option string) :=
  map (fun t => if String.eqb t ty then Some id else None) types.

(** predicates used in the proofs below *)
Definition all (p : ascii -> bool) (w : string) : bool :=
  forallb p (list_ascii_of_string w).

Definition no_char (c : ascii) (s : string) : bool :=
  forallb (fun u => negb (Ascii.eqb u c)) (list_ascii_of_string s).

Definition scheme (p : string) : Prop := p = "" \/ p = "http://" \/ p = "https://".

Definition intl_seg (w : string) : Prop :=
  w = "" \/ exists v, w = "/intl-" ++ v /\ v <> "" /\ all is_word v = true.

(** what may follow the id in a URL match *)
Definition tail_ok (q : string) : bool :=
  Sanitize.dollar q || String.prefix "?si=" q.

(** the tail of a URL accepted after the id *)
Definition si_tail (q : string) : Prop :=
  q = "" \/ exists x, q = "?si=" ++ x /\ x <> "" /\ all not_nl x = true.

(** a type segment that cannot be confused with a separator or with the
    [intl-] segment *)
Definition ty_ok (ty : string) : bool :=
  no_char "/" ty && no_char ":" ty && negb (String.prefix "i" ty).

Definition id0 := "4uLU6hMCjMI75M1A2tKUQC".

Example url_ex_1 : regex_input_for_urls ("spotify:track:" ++ id0)
  = (Some id0, None, None, None, None, None).
Proof. reflexivity. Qed.
Example url_ex_2 :
  regex_input_for_urls ("https://open.spotify.com/album/" ++ id0 ++ "?si=xyz")
  = (None, Some id0, None, None, None, None).
Proof. reflexivity. Qed.
Example url_ex_3 :
  regex_input_for_urls ("open.spotify.com/intl-de/show/" ++ id0)
  = (None, None, None, None, Some id0, None).
Proof. reflexivity. Qed.
Example url_ex_4 :
  all_none (regex_input_for_urls ("https://open.spotify.com/track/" ++ id0 ++ "?utm=1")) = true.
Proof. reflexivity. Qed.
Example url_ex_5 :
  all_none (regex_input_for_urls ("spotify:track:" ++ id0 ++ "?si=xyz")) = true.
Proof. reflexivity. Qed.
Example url_ex_6 : regex_input_for_urls ("spotify:artist:" ++ id0 ++ String "010" "")
  = (None, None, None, None, None, Some id0).
Proof. reflexivity. Qed.

End Urls.

(* ------------------------------------------------------------------ *)
(** ** The archive helpers

    The file system is a total map from paths to nodes, threaded through
    the calls as explicit state.  An operation returns its outcome together
    with the state it leaves (an exception leaves the effects done before
    it).  The failures modelled are opening a directory as a file, a
    missing file opened for reading, and [mkdir] meeting a file.  Not
    modelled: a missing or non-directory parent when a file is opened for
    writing or appending ([FileNotFoundError], [NotADirectoryError]; the
    properties below that create a file assume its parent directories
    exist), permission errors, and decoding errors when a file is read
    (a file's contents are its decoded text).
    The configuration object [Zotify.CONFIG] is passed explicitly; the
    clock reading [datetime.now().strftime(...)] is an argument [now]. *)

Module Archive.

Inductive node := File (contents : string) | Dir.

Definition fs := string -> option node.

Inductive error :=
  IsADirectoryError | FileExistsError | FileNotFoundError | NotADirectoryError.

Inductive result (A : Type) := Ok (a : A) | Err (e : error).
Arguments Ok {A} a.
Arguments Err {A} e.

Definition io (A : Type) := fs -> result A * fs.

Definition ret {A} (a : A) : io A := fun st => (Ok a, st).
Definition raise {A} (e : error) : io A := fun st => (Err e, st).
Definition bind {A B} (m : io A) (f : A -> io B) : io B :=
  fun st => match m st with
            | (Ok a, st') => f a st'
            | (Err e, st') => (Err e, st')
            end.

Notation "x <- m ;; k" := (bind m (fun x => k))
  (at level 61, m at next level, right associativity).
Notation "m ;;; k" := (bind m (fun _ => k)) (at level 61, right associativity).

Definition get : io fs := fun st => (Ok st, st).
Definition put (st : fs) : io unit := fun _ => (Ok tt, st).

Definition update (st : fs) (p : string) (n : node) : fs :=
  fun q => if String.eqb q p then Some n else st q.

Record config := {
  song_archive : string;                 (* CONFIG.get_song_archive() *)
  disable_directory_archives : bool      (* CONFIG.get_disable_directory_archives() *)
}.

(** [Path(p).exists()] and [Path(p).is_file()] *)
Definition path_exists (p : string) : io bool :=
  st <- get ;; ret (match st p with Some _ => true | None => false end).

Definition is_file (p : string) : io bool :=
  st <- get ;; ret (match st p with Some (File _) => true | _ => false end).

(** [open(p, 'w').write(data)]; the parent directory of [p] is not
    checked (see above) *)
Definition write_file (p data : string) : io unit :=
  st <- get ;;
  match st p with
  | Some Dir => raise IsADirectoryError
  | _ => put (update st p (File data))
  end.

(** [open(p, 'a').write(data)]; the parent directory of [p] is not
    checked (see above) *)
Definition append_file (p data : string) : io unit :=
  st <- get ;;
  match st p with
  | Some Dir => raise IsADirectoryError
  | Some (File c) => put (update st p (File (c ++ data)))
  | None => put (update st p (File data))
  end.

(** [open(p, 'r').read()]; permission and decoding errors are not
    modelled (see above) *)
Definition read_file (p : string) : io string :=
  st <- get ;;
  match st p with
  | Some Dir => raise IsADirectoryError
  | Some (File c) => ret c
  | None => raise FileNotFoundError
  end.

(** [PurePath(p).joinpath(n)] for a relative [n] *)
Definition joinpath (p n : string) : string :=
  if String.eqb p "" then n
  else if String.eqb (substring (String.length p - 1) 1 p) "/" then p ++ n
  else p ++ "/" ++ n.

(** the proper ancestors of [p] named by its ['/'] separators *)
Fixpoint parent_prefixes (acc p : string) : list string :=
  match p with
  | EmptyString => []
  | String c r =>
      let rest := parent_prefixes (acc ++ String c "") r in
      if Ascii.eqb c "/" && negb (String.eqb acc "") then acc :: rest else rest
  end.

(** the prefixes [ps] are created in order, the last one being the target:
    a file in its place gives [FileExistsError] ([exist_ok] only accepts a
    directory), a file in place of an ancestor [NotADirectoryError] *)
Fixpoint mkdir_all (ps : list string) : io unit :=
  match ps with
  | [] => ret tt
  | q :: qs =>
      st <- get ;;
      match st q with
      | Some (File _) =>
          raise (match qs with [] => FileExistsError | _ => NotADirectoryError end)
      | Some Dir => mkdir_all qs
      | None => put (update st q Dir) ;;; mkdir_all qs
      end
  end.

(** [Path(p).mkdir(parents=True, exist_ok=True)] *)
Definition mkdir_parents (p : string) : io unit :=
  mkdir_all (parent_prefixes "" p ++ [p]).

(** [file.readlines()] in text mode: universal newlines, each of ["\n"],
    ["\r\n"] and ["\r"] ends a line and is read as ["\n"]. *)
Fixpoint readlines (s : string) : list string :=
  match s with
  | EmptyString => []
  | String c r =>
      if Ascii.eqb c "010" then String "010" "" :: readlines r
      else if Ascii.eqb c "013" then
        match r with
        | String d r' =>
            if Ascii.eqb d "010" then String "010" "" :: readlines r'
            else String "010" "" :: readlines r
        | EmptyString => [String "010" ""]
        end
      else match readlines r with
           | [] => [String c ""]
           | l :: ls => String c l :: ls
           end
  end.

(** [[line.strip().split('\t')[0] for line in f.readlines()]] *)
Definition ids_of (contents : string) : list string :=
  map (fun line => Py.split_tab_0 (Py.strip line)) (readlines contents).

(** the record line written by [add_to_archive] and
    [add_to_directory_song_ids] *)
Definition record_line (song_id now author_name song_name filename : string)
  : string :=
  song_id ++ String "009" (now ++ String "009" (author_name ++ String "009"
  (song_name ++ String "009" (filename ++ String "010" "")))).

Definition create_download_directory (cfg : config) (download_path : string)
  : io unit :=
  mkdir_parents download_path ;;;
  let hidden_file_path := joinpath download_path ".song_ids" in
  if disable_directory_archives cfg then ret tt
  else b <- is_file hidden_file_path ;;
       if b then ret tt else write_file hidden_file_path "".

Definition get_previously_downloaded (cfg : config) : io (list string) :=
  let archive_path := song_archive cfg in
  b <- path_exists archive_path ;;
  if b then c <- read_file archive_path ;; ret (ids_of c)
  else ret [].

Definition add_to_archive (cfg : config) (now : string)
  (song_id filename author_name song_name : string) : io unit :=
  let archive_path := song_archive cfg in
  b <- path_exists archive_path ;;
  if b then append_file archive_path
              (record_line song_id now author_name song_name filename)
  else write_file archive_path
         (record_line song_id now author_name song_name filename).

Definition get_directory_song_ids (cfg : config) (download_path : string)
  : io (list string) :=
  let hidden_file_path := joinpath download_path ".song_ids" in
  b <- is_file hidden_file_path ;;
  if b && negb (disable_directory_archives cfg) then
    c <- read_file hidden_file_path ;; ret (ids_of c)
  else ret [].

Definition add_to_directory_song_ids (cfg : config) (now : string)
  (download_path song_id filename author_name song_name : string) : io unit :=
  let hidden_file_path := joinpath download_path ".song_ids" in
  if disable_directory_archives cfg then ret tt
  else append_file hidden_file_path
         (record_line song_id now author_name song_name filename).

(** predicates on the fields of a record, used in the properties below:
    [one_line s] holds when [s] has no ["\n"] and no ["\r"], [no_space s]
    when no character of [s] is white space (for [str.strip]) *)
Fixpoint one_line (s : string) : bool :=
  match s with
  | EmptyString => true
  | String c r => negb (Ascii.eqb c "010") && negb (Ascii.eqb c "013") && one_line r
  end.

Fixpoint no_space (s : string) : bool :=
  match s with
  | EmptyString => true
  | String c r => negb (Py.is_space c) && no_space r
  end.

Definition empty_fs : fs := fun _ => None.
Definition cfg0 := {| song_archive := "archive"; disable_directory_archives := false |}.

Example archive_ex :
  let st := snd (add_to_archive cfg0 "t1" "abc" "f" "au" "nm" empty_fs) in
  let st := snd (add_to_archive cfg0 "t2" "abc" "g" "au" "nm" st) in
  fst (get_previously_downloaded cfg0 st) = Ok ["abc"; "abc"].
Proof. reflexivity. Qed.

Example mkdir_ex :
  let st := snd (create_download_directory cfg0 "a/b/c" empty_fs) in
  (st "a", st "a/b", st "a/b/c", st "a/b/c/.song_ids")
  = (Some Dir, Some Dir, Some Dir, Some (File "")).
Proof. reflexivity. Qed.

End Archive.

(* ------------------------------------------------------------------ *)
(** ** [conv_artist_format], [split_input]

    [str.join], [str.split(sep)] for a one-character separator, and
    [int(str)] for a base-10 string: leading and trailing white space
    (what [str.isspace] accepts: CPython maps every white space character
    to a space before parsing), an optional sign, then digits with single
    underscores between digits; more than 4300 digits is refused by the
    default [sys.get_int_max_str_digits()].  [split_input] returns a Python
    list of [int]s or of [str]s: its items are the [item] type below. *)

Module Selection.
Local Open Scope Z_scope.

(** [sep.join(l)] *)
Fixpoint join (sep : string) (l : list string) : string :=
  match l with
  | [] => ""
  | [x] => x
  | x :: xs => x ++ sep ++ join sep xs
  end.

(** [s.split(sep)] for a separator of one character *)
Fixpoint split_on (sep : ascii) (s : string) : list string :=
  match s with
  | EmptyString => [EmptyString]
  | String c r =>
      if Ascii.eqb c sep then EmptyString :: split_on sep r
      else match split_on sep r with
           | x :: xs => String c x :: xs
           | [] => [String c EmptyString]
           end
  end.

(** [c in s] for a character [c] *)
Definition contains (c : ascii) (s : string) : bool :=
  existsb (Ascii.eqb c) (list_ascii_of_string s).

Definition is_digit (c : ascii) : bool :=
  let n := nat_of_ascii c in (48 <=? n)%nat && (n <=? 57)%nat.

Definition digit_val (c : ascii) : Z := Z.of_nat (nat_of_ascii c - 48).

Inductive exn := ValueError | IndexError.

Inductive outcome (A : Type) := Ret (a : A) | Raise (e : exn).
Arguments Ret {A} a.
Arguments Raise {A} e.

(** digits with single underscores between them, after a first digit:
    the value read so far, the number of digits and the rest *)
Fixpoint digits_us (acc : Z) (n : nat) (s : string) : Z * nat * string :=
  match s with
  | EmptyString => (acc, n, EmptyString)
  | String c r =>
      if is_digit c then digits_us (acc * 10 + digit_val c) (S n) r
      else if Ascii.eqb c "_" then
        match r with
        | String d r' =>
            if is_digit d then digits_us (acc * 10 + digit_val d) (S n) r'
            else (acc, n, s)
        | EmptyString => (acc, n, s)
        end
      else (acc, n, s)
  end.

Definition max_str_digits : nat := 4300.

(** [int(s)] *)
Definition py_int (s : string) : outcome Z :=
  let t := Py.lstrip s in
  let '(neg, t) :=
    match t with
    | String c r =>
        if Ascii.eqb c "+" then (false, r)
        else if Ascii.eqb c "-" then (true, r)
        else (false, t)
    | EmptyString => (false, t)
    end in
  match t with
  | String c r =>
      if is_digit c then
        let '(v, n, rest) := digits_us (digit_val c) 1 r in
        if negb (String.eqb (Py.lstrip rest) "") then Raise ValueError
        else if (max_str_digits <? n)%nat then Raise ValueError
        else Ret (if neg then - v else v)
      else Raise ValueError
  | EmptyString => Raise ValueError
  end.

(** [list(range(a, b))] *)
Definition zrange (a b : Z) : list Z :=
  map (fun i => a + Z.of_nat i) (seq 0 (Z.to_nat (b - a))).

Inductive item := IntItem (z : Z) | StrItem (s : string).

Definition split_input (selection : string) : outcome (list item) :=
  if contains "-" selection then
    let parts := split_on "-" selection in
    match nth_error parts 0 with
    | None => Raise IndexError
    | Some a =>
        match py_int a with
        | Raise e => Raise e
        | Ret lo =>
            match nth_error parts 1 with
            | None => Raise IndexError
            | Some b =>
                match py_int b with
                | Raise e => Raise e
                | Ret hi => Ret (map IntItem (zrange lo (hi + 1)))
                end
            end
        end
    end
  else Ret (map (fun i => StrItem (Py.strip i)) (split_on "," selection)).

Definition conv_artist_format (artists : list string) : string :=
  join ", " artists.

(** the value of a string of decimal digits, used to state properties *)
Fixpoint decimal_value (acc : Z) (s : string) : Z :=
  match s with
  | EmptyString => acc
  | String c r => decimal_value (acc * 10 + digit_val c) r
  end.

Fixpoint all_chars (p : ascii -> bool) (s : string) : bool :=
  match s with
  | EmptyString => true
  | String c r => p c && all_chars p r
  end.

Example split_ex_1 : split_input "1-3" = Ret [IntItem 1; IntItem 2; IntItem 3].
Proof. reflexivity. Qed.
Example split_ex_2 : split_input " a , b,c" = Ret [StrItem "a"; StrItem "b"; StrItem "c"].
Proof. reflexivity. Qed.
Example split_ex_3 : split_input "-5" = Raise ValueError.
Proof. reflexivity. Qed.
Example split_ex_4 : split_input " 1_0 - 12 " = Ret [IntItem 10; IntItem 11; IntItem 12].
Proof. reflexivity. Qed.
Example split_ex_5 : split_input "3-1" = Ret [].
Proof. reflexivity. Qed.

End Selection.

(* ------------------------------------------------------------------ *)
(** ** [add_to_m3u]

    [Zotify.CONFIG.get_root_path()] and [Zotify.datetime_launch] are passed
    as arguments; [filename] is the text [f'{filename}'] of the path.  The
    float [song_duration] is a rational (finite floats), and [int()] of it
    truncates towards zero. *)

Module Playlist.
Import Archive.

Definition nl : string := String "010" "".

(** [int(x)] for a finite float [x] *)
Definition int_of_float (x : Q) : Z :=
  if Qle_bool 0 x then Qfloor x else - Qfloor (- x).

Definition m3u_path (root_path datetime_launch : string) : string :=
  joinpath root_path (datetime_launch ++ "_zotify.m3u8").

Definition add_to_m3u (root_path datetime_launch : string)
  (filename : string) (song_duration : Q) (song_name : string) : io unit :=
  let path := m3u_path root_path datetime_launch in
  b <- path_exists path ;;
  (if b then ret tt else write_file path ("#EXTM3U" ++ nl ++ nl)) ;;;
  append_file path ("#EXTINF:" ++ Py.str_int (int_of_float song_duration) ++ ", "
                    ++ song_name ++ nl) ;;;
  append_file path (filename ++ nl ++ nl).

(** successive calls, one per downloaded song *)
Fixpoint add_all_to_m3u (root_path datetime_launch : string)
  (songs : list (string * Q * string)) : io unit :=
  match songs with
  | [] => ret tt
  | (filename, song_duration, song_name) :: rest =>
      add_to_m3u root_path datetime_launch filename song_duration song_name ;;;
      add_all_to_m3u root_path datetime_launch rest
  end.

(** the two lines written for one song *)
Definition m3u_entry (song : string * Q * string) : string :=
  let '(filename, song_duration, song_name) := song in
  "#EXTINF:" ++ Py.str_int (int_of_float song_duration) ++ ", " ++ song_name ++ nl
  ++ filename ++ nl ++ nl.

Example m3u_ex :
  let st := snd (add_all_to_m3u "music" "t0" [("a.ogg", 61 # 2, "A"); ("b.ogg", 7, "B")]
                   empty_fs) in
  st "music/t0_zotify.m3u8"
  = Some (File ("#EXTM3U" ++ nl ++ nl ++ "#EXTINF:30, A" ++ nl ++ "a.ogg" ++ nl ++ nl
                ++ "#EXTINF:7, B" ++ nl ++ "b.ogg" ++ nl ++ nl)).
Proof. reflexivity. Qed.

End Playlist.

(* ------------------------------------------------------------------ *)
(** ** [get_downloaded_song_duration]

    The [ffprobe] run is not modelled: the function takes the bytes
    [output.stdout] (a string of 8-bit characters).  [str()] of a [bytes]
    object is its [repr]; the regex search (a non-digit, ['='], then a
    group of digits and dots repeated any number of times) finds the
    first position holding a non-digit followed by ['='] and takes the
    longest run of digits and dots after it; [.groups()] on [None] raises
    [AttributeError], and [float()] raises [ValueError] on a run that is
    no float literal.  For a valid run the result is the float that text
    denotes ([Seconds text]). *)

Module Probe.

Definition hex_digit (n : nat) : ascii :=
  if (n <? 10)%nat then ascii_of_nat (48 + n) else ascii_of_nat (87 + n).

(** one byte of [repr(b)], with the quote character [q] *)
Definition repr_byte (q c : ascii) : string :=
  let n := nat_of_ascii c in
  if Ascii.eqb c q || Ascii.eqb c "\" then String "\" (String c "")
  else if Ascii.eqb c "009" then "\t"
  else if Ascii.eqb c "010" then "\n"
  else if Ascii.eqb c "013" then "\r"
  else if (n <? 32)%nat || (127 <=? n)%nat then
    String "\" (String "x" (String (hex_digit (n / 16)) (String (hex_digit (n mod 16)) "")))
  else String c "".

Fixpoint repr_body (q : ascii) (s : string) : string :=
  match s with
  | EmptyString => EmptyString
  | String c r => repr_byte q c ++ repr_body q r
  end.

(** [str(b)] for a [bytes] value [b]: the double quote is used when [b]
    holds a single quote and no double quote *)
Definition bytes_repr (b : string) : string :=
  let q := if Selection.contains "'" b && negb (Selection.contains "034" b)
           then "034"%char else "'"%char in
  String "b" (String q (repr_body q b ++ String q "")).

Fixpoint span_num (s : string) : string :=
  match s with
  | EmptyString => EmptyString
  | String c r =>
      if Selection.is_digit c || Ascii.eqb c "." then String c (span_num r) else EmptyString
  end.

(** the regex search of [get_downloaded_song_duration]: the group, if
    there is a match *)
Fixpoint search_duration (s : string) : option string :=
  match s with
  | EmptyString => None
  | String c r =>
      match r with
      | String e r' =>
          if negb (Selection.is_digit c) && Ascii.eqb e "=" then Some (span_num r')
          else search_duration r
      | EmptyString => None
      end
  end.

Fixpoint count_char (c : ascii) (s : string) : nat :=
  match s with
  | EmptyString => O
  | String d r => (if Ascii.eqb d c then 1 else 0) + count_char c r
  end.

(** [float(t)] succeeds, for a run [t] of digits and dots *)
Definition float_ok (t : string) : bool :=
  (count_char "." t <=? 1)%nat && existsb Selection.is_digit (list_ascii_of_string t).

Inductive duration := Seconds (text : string) | ValueError | AttributeError.

Definition get_downloaded_song_duration (stdout : string) : duration :=
  match search_duration (bytes_repr stdout) with
  | None => AttributeError
  | Some d => if float_ok d then Seconds d else ValueError
  end.

Example probe_ex_1 :
  get_downloaded_song_duration
    ("[FORMAT]" ++ Playlist.nl ++ "duration=215.373000" ++ Playlist.nl ++ "[/FORMAT]"
     ++ Playlist.nl) = Seconds "215.373000".
Proof. reflexivity. Qed.
Example probe_ex_2 :
  get_downloaded_song_duration
    ("[FORMAT]" ++ Playlist.nl ++ "duration=N/A" ++ Playlist.nl ++ "[/FORMAT]"
     ++ Playlist.nl) = ValueError.
Proof. reflexivity. Qed.
Example probe_ex_3 : get_downloaded_song_duration "" = AttributeError.
Proof. reflexivity. Qed.

End Probe.

(** the two-digit rendering of [0 <= k < 100], used to state properties
    of [fmt_seconds] *)
Definition two_digits (k : Z) : string :=
  String (ascii_of_nat (48 + Z.to_nat (k / 10))) (String (ascii_of_nat (48 + Z.to_nat (k mod 10))) "").


(* ================================================================== *)
(** * Properties *)

(* ------------------------------------------------------------------ *)
(** ** [fmt_seconds] *)

Module FmtSecondsFacts.

(** [fmt_seconds] only depends on the floored value. *)
Lemma fmt_seconds_floor (secs : Q) :
  fmt_seconds secs = fmt_seconds (inject_Z (Qfloor secs)).
Proof. unfold fmt_seconds. rewrite Qfloor_Z. reflexivity. Qed.

Lemma seconds_only_table :
  forallb (fun v => String.eqb (fmt_seconds (inject_Z v)) (Py.str_int v ++ "s"))
          (map Z.of_nat (seq 1 59)) = true.
Proof. vm_compute. reflexivity. Qed.

(** C1 (counterexample): for 5 seconds the result is ["5s"], not ["05s"]:
    [zfill(2)] is applied to ["5s"], which already has width 2. *)
Lemma fmt_seconds_5_not_padded :
  fmt_seconds 5 = "5s" /\ fmt_seconds 5 <> "05s".
Proof. split; [reflexivity | vm_compute; discriminate]. Qed.

(** C1 (amended): when the floored value has zero hours, zero minutes and
    nonzero seconds (it lies in 1..59), [fmt_seconds] returns [str(s)]
    followed by ['s'], without padding; and the four reference values. *)
Theorem fmt_seconds_seconds_only (secs : Q) :
  (0 < Qfloor secs < 60)%Z ->
  fmt_seconds secs = Py.str_int (Qfloor secs) ++ "s"
  /\ fmt_seconds 0 = "0s" /\ fmt_seconds 5 = "5s"
  /\ fmt_seconds 65 = "01:05" /\ fmt_seconds 3661 = "01:01:01".
Proof.
  intros Hv. split; [| repeat split; reflexivity].
  rewrite fmt_seconds_floor.
  set (v := Qfloor secs) in *.
  pose proof seconds_only_table as T.
  rewrite forallb_forall in T.
  assert (Hin : In v (map Z.of_nat (seq 1 59))).
  { apply in_map_iff. exists (Z.to_nat v). split; [lia |].
    apply in_seq. lia. }
  specialize (T v Hin). apply String.eqb_eq in T. exact T.
Qed.

Lemma fmt_seconds_seconds_only_witness :
  (0 < Qfloor (599 # 10) < 60)%Z /\
  fmt_seconds (599 # 10) = Py.str_int (Qfloor (599 # 10)) ++ "s".
Proof.
  split; [vm_compute; split; reflexivity |].
  apply (fmt_seconds_seconds_only (599 # 10)). vm_compute. split; reflexivity.
Defined.

End FmtSecondsFacts.

(* ------------------------------------------------------------------ *)
(** ** Lemmas on [string] *)

Module StrFacts.
Local Open Scope nat_scope.

Lemma app_nil_r (s : string) : s ++ "" = s.
Proof. induction s; simpl; congruence. Qed.

Lemma app_assoc (a b c : string) : (a ++ b) ++ c = a ++ (b ++ c).
Proof. induction a; simpl; congruence. Qed.

Lemma length_app (a b : string) :
  String.length (a ++ b) = String.length a + String.length b.
Proof. induction a; simpl; auto. Qed.

Lemma app_inv_l (a b c : string) : a ++ b = a ++ c -> b = c.
Proof. induction a; simpl; intros H; [exact H | inversion H; auto]. Qed.

End StrFacts.

(* ------------------------------------------------------------------ *)
(** ** The directory manifest and the global archive: frame and absence *)

Module ArchiveFacts.
Import Archive.
Local Open Scope nat_scope.

Lemma mkdir_all_cons (p : string) (ps : list string) (st : fs) :
  mkdir_all (p :: ps) st =
  match st p with
  | Some (File _) =>
      (Err (match ps with [] => FileExistsError | _ => NotADirectoryError end), st)
  | Some Dir => mkdir_all ps st
  | None => mkdir_all ps (update st p Dir)
  end.
Proof. simpl. unfold bind, get, put, raise. destruct (st p) as [[c|]|]; reflexivity. Qed.

Lemma mkdir_all_frame (ps : list string) (st : fs) :
  forall q, snd (mkdir_all ps st) q = st q
            \/ (st q = None /\ snd (mkdir_all ps st) q = Some Dir).
Proof.
  revert st; induction ps as [| p ps IH]; intros st q; [now left |].
  rewrite mkdir_all_cons. destruct (st p) as [[c|]|] eqn:Hp.
  - now left.
  - apply IH.
  - destruct (IH (update st p Dir) q) as [H | [H1 H2]]; unfold update in *.
    + rewrite H. destruct (String.eqb_spec q p) as [-> | Hne].
      * right. auto.
      * now left.
    + destruct (String.eqb q p); [discriminate | right; auto].
Qed.

Lemma mkdir_all_not_in (ps : list string) (st : fs) (q : string) :
  ~ In q ps -> snd (mkdir_all ps st) q = st q.
Proof.
  revert st; induction ps as [| p ps IH]; intros st Hq; [reflexivity |].
  rewrite mkdir_all_cons. destruct (st p) as [[c|]|] eqn:Hp.
  - reflexivity.
  - apply IH. intros H; apply Hq; now right.
  - rewrite IH by (intros H; apply Hq; now right).
    unfold update. destruct (String.eqb_spec q p); [subst; exfalso; apply Hq; now left | reflexivity].
Qed.

Lemma mkdir_all_ok (ps : list string) (st : fs) :
  fst (mkdir_all ps st) = Ok tt -> forall q, In q ps -> snd (mkdir_all ps st) q = Some Dir.
Proof.
  revert st; induction ps as [| p ps IH]; intros st Hok q Hq; [destruct Hq |].
  rewrite mkdir_all_cons in *. destruct (st p) as [[c|]|] eqn:Hp.
  - discriminate.
  - destruct Hq as [<- | Hq]; [| now apply IH].
    destruct (mkdir_all_frame ps st p) as [H | [H _]]; congruence.
  - destruct Hq as [<- | Hq]; [| now apply IH].
    destruct (mkdir_all_frame ps (update st p Dir) p) as [H | [H _]];
      unfold update in *; rewrite String.eqb_refl in *; congruence.
Qed.

Lemma parent_prefixes_length (p : string) :
  forall acc q, In q (parent_prefixes acc p) ->
  String.length q <= String.length acc + String.length p.
Proof.
  induction p as [| c p IH]; intros acc q Hq; simpl in *; [destruct Hq |].
  assert (Hr : In q (parent_prefixes (acc ++ String c "") p) ->
               String.length q <= String.length acc + S (String.length p)).
  { intros H. specialize (IH _ _ H). rewrite StrFacts.length_app in IH.
    simpl in IH. lia. }
  destruct (Ascii.eqb c "/" && negb (String.eqb acc "")).
  - destruct Hq as [<- | Hq]; [lia | auto].
  - auto.
Qed.

Lemma joinpath_longer (p n : string) :
  n <> "" -> String.length p < String.length (joinpath p n).
Proof.
  intros Hn. unfold joinpath.
  destruct n as [| c n]; [congruence |].
  destruct (String.eqb_spec p "") as [-> | Hp]; [simpl; lia |].
  destruct (String.eqb _ "/"); repeat rewrite StrFacts.length_app; simpl; lia.
Qed.

(** [mkdir(parents=True)] on [p] leaves every longer path alone. *)
Lemma mkdir_parents_frame (p q : string) (st : fs) :
  String.length p < String.length q ->
  snd (mkdir_parents p st) q = st q.
Proof.
  intros Hl. apply mkdir_all_not_in. intros Hin.
  apply in_app_or in Hin. destruct Hin as [Hin | [<- | []]]; [| lia].
  apply parent_prefixes_length in Hin. simpl in Hin. lia.
Qed.

Lemma mkdir_parents_ok (p : string) (st : fs) :
  fst (mkdir_parents p st) = Ok tt -> snd (mkdir_parents p st) p = Some Dir.
Proof.
  intros H. apply mkdir_all_ok; [exact H |].
  apply in_or_app. right. now left.
Qed.

Lemma create_download_directory_disabled (cfg : config) (p : string) (st : fs) :
  disable_directory_archives cfg = true ->
  create_download_directory cfg p st =
  match mkdir_parents p st with
  | (Ok _, st') => (Ok tt, st')
  | (Err e, st') => (Err e, st')
  end.
Proof.
  intros Hd. unfold create_download_directory, bind at 1.
  destruct (mkdir_parents p st) as [[[] | e] st']; [| reflexivity].
  rewrite Hd. reflexivity.
Qed.

(** C8: with directory archives disabled, [add_to_directory_song_ids] does
    nothing, [create_download_directory] leaves the [.song_ids] path as it
    was (it still creates the directory when it succeeds), and
    [get_directory_song_ids] returns [[]] whatever the manifest holds. *)
Theorem directory_archive_disabled_noop (cfg : config) :
  disable_directory_archives cfg = true ->
  (forall now p song_id filename author_name song_name st,
     add_to_directory_song_ids cfg now p song_id filename author_name song_name st
     = (Ok tt, st))
  /\ (forall p st,
        snd (create_download_directory cfg p st) (joinpath p ".song_ids")
        = st (joinpath p ".song_ids")
        /\ (fst (create_download_directory cfg p st) = Ok tt ->
            snd (create_download_directory cfg p st) p = Some Dir))
  /\ (forall p st, get_directory_song_ids cfg p st = (Ok [], st)).
Proof.
  intros Hd. split; [| split].
  - intros. unfold add_to_directory_song_ids. rewrite Hd. reflexivity.
  - intros p st. rewrite create_download_directory_disabled by exact Hd.
    pose proof (mkdir_parents_frame p (joinpath p ".song_ids") st) as Hf.
    pose proof (mkdir_parents_ok p st) as Hok.
    destruct (mkdir_parents p st) as [[[] | e] st'] eqn:Hm; simpl in *.
    + split; [apply Hf, joinpath_longer; discriminate | intros _; auto].
    + split; [apply Hf, joinpath_longer; discriminate | discriminate].
  - intros p st. unfold get_directory_song_ids, bind, is_file, get, bind, ret.
    simpl. rewrite Hd, andb_false_r. reflexivity.
Qed.

Lemma directory_archive_disabled_noop_witness :
  disable_directory_archives
    {| song_archive := "archive"; disable_directory_archives := true |} = true
  /\ get_directory_song_ids
       {| song_archive := "archive"; disable_directory_archives := true |} "d"
       (update empty_fs "d/.song_ids" (File "x\t\n"))
     = (Ok [], update empty_fs "d/.song_ids" (File "x\t\n")).
Proof.
  split; [reflexivity |].
  apply (directory_archive_disabled_noop
           {| song_archive := "archive"; disable_directory_archives := true |}).
  reflexivity.
Defined.

(** C9: a missing archive reads as [[]], and so does a missing manifest;
    neither raises and neither changes the file system. *)
Theorem missing_archive_reads_empty (cfg : config) (p : string) (st : fs) :
  (st (song_archive cfg) = None -> get_previously_downloaded cfg st = (Ok [], st))
  /\ (st (joinpath p ".song_ids") = None ->
      get_directory_song_ids cfg p st = (Ok [], st)).
Proof.
  split; intros H.
  - unfold get_previously_downloaded, bind, path_exists, get, ret. simpl.
    rewrite H. reflexivity.
  - unfold get_directory_song_ids, bind, is_file, get, ret. simpl.
    rewrite H. reflexivity.
Qed.

Lemma missing_archive_reads_empty_witness :
  get_previously_downloaded cfg0 empty_fs = (Ok [], empty_fs)
  /\ get_directory_song_ids cfg0 "d" empty_fs = (Ok [], empty_fs).
Proof.
  split; apply (missing_archive_reads_empty cfg0 "d" empty_fs); reflexivity.
Defined.

Lemma one_line_app (a b : string) : one_line (a ++ b) = one_line a && one_line b.
Proof.
  induction a as [| c a IH]; [reflexivity |]. simpl. rewrite IH.
  destruct (negb (c =? "010")%char), (negb (c =? "013")%char), (one_line a); reflexivity.
Qed.

Lemma readlines_nonempty (s : string) : s <> "" -> readlines s <> [].
Proof.
  destruct s as [| c r]; [congruence | intros _]. simpl.
  destruct (c =? "010")%char; [discriminate |].
  destruct (c =? "013")%char.
  - destruct r as [| d r']; [discriminate |]. destruct (d =? "010")%char; discriminate.
  - destruct (readlines r); discriminate.
Qed.

(** the lines of a text that ends with a newline, and then of another *)
Lemma readlines_app_nl (n : nat) (a b : string) :
  String.length a <= n ->
  readlines (a ++ String "010" b) = (readlines (a ++ String "010" "") ++ readlines b)%list.
Proof.
  revert a b; induction n as [| n IH]; intros a b Hl;
    (destruct a as [| c a]; [reflexivity | simpl in Hl; try lia]).
  simpl readlines.
  destruct (c =? "010")%char eqn:E1.
  - rewrite IH by lia. reflexivity.
  - destruct (c =? "013")%char eqn:E2.
    + destruct a as [| d a]; [reflexivity |]. simpl in Hl.
      cbn [append]. destruct (d =? "010")%char eqn:E3.
      * rewrite IH by lia. reflexivity.
      * change (String d (a ++ String "010" b)) with (String d a ++ String "010" b).
        change (String d (a ++ String "010" "")) with (String d a ++ String "010" "").
        rewrite (IH (String d a)) by (simpl; lia). reflexivity.
    + rewrite IH by lia.
      assert (Hne : readlines (a ++ String "010" "") <> []).
      { apply readlines_nonempty. destruct a; discriminate. }
      destruct (readlines (a ++ String "010" "")); [congruence | reflexivity].
Qed.

Lemma readlines_app (a b : string) :
  (a = "" \/ exists a', a = a' ++ String "010" "") ->
  readlines (a ++ b) = (readlines a ++ readlines b)%list.
Proof.
  intros [-> | [a' ->]]; [reflexivity |].
  rewrite StrFacts.app_assoc. simpl (String "010" "" ++ b).
  apply (readlines_app_nl (String.length a')). lia.
Qed.

Lemma readlines_one_line (s : string) :
  one_line s = true -> readlines (s ++ String "010" "") = [s ++ String "010" ""].
Proof.
  induction s as [| c s IH]; intros H; [reflexivity |].
  simpl in H. apply andb_prop in H. destruct H as [H Hs].
  apply andb_prop in H. destruct H as [H1 H2].
  apply negb_true_iff in H1, H2.
  simpl. rewrite H1, H2, (IH Hs). reflexivity.
Qed.

Lemma lstrip_no_space (c : ascii) (r : string) :
  Py.is_space c = false -> Py.lstrip (String c r) = String c r.
Proof. intros H. simpl. rewrite H. reflexivity. Qed.

Lemma rstrip_app (a b : string) :
  no_space a = true -> Py.rstrip (a ++ b) = a ++ Py.rstrip b.
Proof.
  induction a as [| c a IH]; intros H; [reflexivity |].
  simpl in H. apply andb_prop in H. destruct H as [Hc Ha].
  apply negb_true_iff in Hc. simpl. rewrite (IH Ha), Hc, andb_false_r. reflexivity.
Qed.

Lemma split_tab_0_app (a b : string) :
  no_space a = true -> Py.split_tab_0 (a ++ b) = a ++ Py.split_tab_0 b.
Proof.
  induction a as [| c a IH]; intros H; [reflexivity |].
  simpl in H. apply andb_prop in H. destruct H as [Hc Ha].
  simpl. rewrite (IH Ha).
  destruct (Ascii.eqb_spec c "009") as [-> | _]; [discriminate | reflexivity].
Qed.

(** the first field of a record line is its song id *)
Lemma record_line_id (song_id now author_name song_name filename : string) :
  song_id <> "" -> no_space song_id = true ->
  Py.split_tab_0 (Py.strip (record_line song_id now author_name song_name filename))
  = song_id.
Proof.
  intros Hne Hs. unfold Py.strip, record_line.
  destruct song_id as [| c i]; [congruence |].
  pose proof Hs as Hs'. simpl in Hs'. apply andb_prop in Hs'. destruct Hs' as [Hc _].
  apply negb_true_iff in Hc.
  change (String c i ++ ?x) with (String c (i ++ x)).
  rewrite lstrip_no_space by exact Hc.
  change (String c (i ++ ?x)) with (String c i ++ x).
  rewrite rstrip_app, split_tab_0_app by exact Hs.
  simpl Py.rstrip. destruct (String.eqb (Py.rstrip _) "" && Py.is_space "009");
    simpl; rewrite StrFacts.app_nil_r; reflexivity.
Qed.

Lemma record_line_split (song_id now author_name song_name filename : string) :
  record_line song_id now author_name song_name filename
  = (song_id ++ String "009" (now ++ String "009" (author_name ++ String "009"
       (song_name ++ String "009" filename)))) ++ String "010" "".
Proof.
  unfold record_line.
  repeat progress (rewrite ?StrFacts.app_assoc; cbn [append]). reflexivity.
Qed.

Lemma record_line_one (song_id now author_name song_name filename : string) :
  one_line song_id = true -> one_line now = true -> one_line author_name = true ->
  one_line song_name = true -> one_line filename = true ->
  ids_of (record_line song_id now author_name song_name filename)
  = [Py.split_tab_0 (Py.strip (record_line song_id now author_name song_name filename))].
Proof.
  intros H1 H2 H3 H4 H5. unfold ids_of. rewrite record_line_split.
  rewrite readlines_one_line; [reflexivity |].
  repeat (rewrite one_line_app || cbn [one_line]).
  rewrite H1, H2, H3, H4, H5. reflexivity.
Qed.

Lemma update_eq (st : fs) (p : string) (n : node) : update st p n p = Some n.
Proof. unfold update. rewrite String.eqb_refl. reflexivity. Qed.

Lemma update_neq (st : fs) (p q : string) (n : node) : q <> p -> update st p n q = st q.
Proof. intros H. unfold update. destruct (String.eqb_spec q p); congruence. Qed.

(** one [add_to_archive] on an archive that is absent, or a file *)
Lemma add_to_archive_step (cfg : config) (now song_id filename author_name song_name : string)
  (st : fs) (old : string) :
  (st (song_archive cfg) = None /\ old = "" \/ st (song_archive cfg) = Some (File old)) ->
  add_to_archive cfg now song_id filename author_name song_name st
  = (Ok tt, update st (song_archive cfg)
              (File (old ++ record_line song_id now author_name song_name filename))).
Proof.
  intros [[H ->] | H];
    unfold add_to_archive, path_exists, append_file, write_file, bind, get, ret, put;
    repeat (rewrite H; cbv beta iota); reflexivity.
Qed.

(** C7: two [add_to_archive] calls with the same id on an archive that is
    absent (its parent directories existing), or a file that is empty or
    ends with a newline, both succeed;
    the file is the old contents followed by the two record lines in call
    order, no other path changes, and [get_previously_downloaded] returns
    the first fields of the old lines followed by the id twice (the fields
    of the records hold no line break and the id is a nonempty string
    without white space, as a Spotify id is). *)
Theorem archive_duplicate_appends (cfg : config) (st : fs) (old song_id : string)
  (now1 filename1 author_name1 song_name1 now2 filename2 author_name2 song_name2 : string) :
  (st (song_archive cfg) = None /\ old = ""
   /\ (forall q, In q (parent_prefixes "" (song_archive cfg)) -> st q = Some Dir)
   \/ st (song_archive cfg) = Some (File old)) ->
  (old = "" \/ exists a, old = a ++ String "010" "") ->
  song_id <> "" -> no_space song_id = true ->
  one_line now1 = true -> one_line filename1 = true -> one_line author_name1 = true ->
  one_line song_name1 = true ->
  one_line now2 = true -> one_line filename2 = true -> one_line author_name2 = true ->
  one_line song_name2 = true ->
  let line1 := record_line song_id now1 author_name1 song_name1 filename1 in
  let line2 := record_line song_id now2 author_name2 song_name2 filename2 in
  exists st1 st2,
    add_to_archive cfg now1 song_id filename1 author_name1 song_name1 st = (Ok tt, st1)
    /\ add_to_archive cfg now2 song_id filename2 author_name2 song_name2 st1 = (Ok tt, st2)
    /\ st2 (song_archive cfg) = Some (File (old ++ line1 ++ line2))
    /\ (forall q, q <> song_archive cfg -> st2 q = st q)
    /\ get_previously_downloaded cfg st2 = (Ok (ids_of old ++ [song_id; song_id])%list, st2).
Proof.
  intros Hst Hold Hne Hsp Hn1 Hf1 Ha1 Hs1 Hn2 Hf2 Ha2 Hs2 line1 line2.
  assert (Hid : one_line song_id = true).
  { clear -Hsp. induction song_id as [| c i IH]; [reflexivity |].
    simpl in *. apply andb_prop in Hsp. destruct Hsp as [Hc Hi].
    rewrite (IH Hi), andb_true_r. apply negb_true_iff in Hc. unfold Py.is_space in Hc.
    destruct (Ascii.eqb_spec c "010") as [-> | _]; [discriminate |].
    destruct (Ascii.eqb_spec c "013") as [-> | _]; [discriminate | reflexivity]. }
  set (p := song_archive cfg) in *.
  set (st1 := update st p (File (old ++ line1))).
  exists st1, (update st1 p (File ((old ++ line1) ++ line2))).
  split; [apply add_to_archive_step; destruct Hst as [[H1 [H2 _]] | H]; auto |].
  split; [apply add_to_archive_step; right; apply update_eq |].
  split; [rewrite update_eq, StrFacts.app_assoc; reflexivity |].
  split.
  - intros q Hq. subst st1. rewrite !update_neq by exact Hq. reflexivity.
  - unfold get_previously_downloaded, path_exists, read_file, bind, get, ret.
    fold p. repeat (rewrite update_eq; cbv beta iota).
    do 2 f_equal. unfold ids_of at 1.
    rewrite StrFacts.app_assoc, readlines_app by exact Hold.
    rewrite (readlines_app line1)
      by (right; eexists; subst line1; apply record_line_split).
    rewrite !map_app. fold (ids_of old) (ids_of line1) (ids_of line2). f_equal.
    subst line1 line2.
    rewrite !record_line_one by assumption.
    rewrite !record_line_id by assumption. reflexivity.
Qed.

Lemma archive_duplicate_appends_witness :
  exists st1 st2,
    add_to_archive cfg0 "t1" "abc" "f" "au" "nm" empty_fs = (Ok tt, st1)
    /\ add_to_archive cfg0 "t2" "abc" "g" "au" "nm" st1 = (Ok tt, st2)
    /\ st2 "archive" = Some (File ("" ++ record_line "abc" "t1" "au" "nm" "f"
                                      ++ record_line "abc" "t2" "au" "nm" "g"))
    /\ (forall q, q <> "archive" -> st2 q = empty_fs q)
    /\ get_previously_downloaded cfg0 st2 = (Ok (ids_of "" ++ ["abc"; "abc"])%list, st2).
Proof.
  exact (archive_duplicate_appends cfg0 empty_fs "" "abc" "t1" "f" "au" "nm" "t2" "g" "au" "nm"
           (or_introl (conj eq_refl (conj eq_refl (fun q (H : In q []) => False_ind _ H))))
           (or_introl eq_refl) ltac:(discriminate)
           eq_refl eq_refl eq_refl eq_refl eq_refl eq_refl eq_refl eq_refl eq_refl).
Defined.

End ArchiveFacts.

(* ------------------------------------------------------------------ *)
(** ** [fix_filename] *)

Module SanitizeFacts.
Import Sanitize.
Local Open Scope nat_scope.

Lemma fix_tail_marked (s : string) : marked s (fix_tail s).
Proof.
  induction s as [| c r IH]; simpl; [exact I |].
  destruct (bad_char c); [| destruct (_ && _)]; simpl; auto.
Qed.

Lemma fix_tail_no_bad (s : string) : no_bad (fix_tail s) = true.
Proof.
  induction s as [| c r IH]; simpl; [reflexivity |].
  destruct (bad_char c) eqn:Hb; [| destruct (_ && _)]; simpl; rewrite ?IH, ?Hb; reflexivity.
Qed.

Lemma fix_tail_last_ok (s : string) : last_ok (fix_tail s) = true.
Proof.
  induction s as [| c r IH]; [reflexivity |].
  destruct r as [| d r'].
  - simpl. destruct (bad_char c); [reflexivity |].
    destruct (Py.is_space c || Ascii.eqb c ".") eqn:E; simpl; rewrite ?E; reflexivity.
  - change (fix_tail (String c (String d r'))) with
      (if bad_char c then String "_" (fix_tail (String d r'))
       else if (Py.is_space c || Ascii.eqb c ".") && dollar (String d r')
       then String "_" (fix_tail (String d r'))
       else String c (fix_tail (String d r'))).
    assert (Hne : exists x y, fix_tail (String d r') = String x y).
    { simpl. destruct (bad_char d); [| destruct (_ && _)]; eauto. }
    destruct Hne as [x [y Hxy]]. rewrite Hxy in *.
    destruct (bad_char c); [| destruct (_ && _)]; exact IH.
Qed.

Lemma fix_tail_id (t : string) :
  no_bad t = true -> last_ok t = true -> fix_tail t = t.
Proof.
  induction t as [| c r IH]; intros Hb Hl; [reflexivity |].
  simpl in Hb. apply andb_prop in Hb. destruct Hb as [Hc Hr].
  apply negb_true_iff in Hc. simpl. rewrite Hc.
  destruct r as [| d r'].
  - simpl in Hl. apply negb_true_iff in Hl. rewrite Hl. reflexivity.
  - assert (Hd : dollar (String d r') = false).
    { unfold dollar.
      destruct (String.eqb_spec (String d r') "") as [E | _]; [discriminate |].
      destruct (String.eqb_spec (String d r') (String "010" "")) as [E | _];
        [| reflexivity].
      inversion E; subst. discriminate. }
    rewrite Hd, andb_false_r. rewrite IH; [reflexivity | exact Hr | exact Hl].
Qed.

Lemma ci_prefix_marked (w : string) :
  forallb (fun u => negb (ci "_" u)) (list_ascii_of_string w) = true ->
  forall s t x, marked s t -> ci_prefix w t = Some x ->
  exists x', ci_prefix w s = Some x' /\ marked x' x.
Proof.
  induction w as [| u w IH]; intros Hw s t x Hm Hp.
  - assert (Hx : x = t) by (destruct t; simpl in Hp; congruence). subst x.
    exists s. split; [destruct s; reflexivity | exact Hm].
  - simpl in Hw. apply andb_prop in Hw. destruct Hw as [Hu Hw].
    destruct s as [| a s'], t as [| b t']; simpl in Hm; try contradiction;
      [discriminate |].
    destruct Hm as [[-> | ->] Hm]; simpl in Hp |- *.
    + destruct (ci a u); [eapply IH; eauto | discriminate].
    + apply negb_true_iff in Hu. rewrite Hu in Hp. discriminate.
Qed.

Lemma lookahead_marked (r x : string) :
  marked r x -> lookahead_ok x = true -> lookahead_ok r = true.
Proof.
  destruct r as [| a r], x as [| b x]; simpl; try tauto.
  intros [[-> | ->] _] H; [exact H | discriminate].
Qed.

Lemma word_alt_marked (w s t : string) :
  forallb (fun u => negb (ci "_" u)) (list_ascii_of_string w) = true ->
  marked s t -> word_alt w s = None -> word_alt w t = None.
Proof.
  intros Hw Hm. unfold word_alt.
  destruct (ci_prefix w t) as [x |] eqn:Ht; [| reflexivity].
  destruct (ci_prefix_marked w Hw s t x Hm Ht) as [x' [Hs Hx]].
  rewrite Hs. destruct (lookahead_ok x) eqn:Hl; [| reflexivity].
  rewrite (lookahead_marked x' x Hx Hl). discriminate.
Qed.

Lemma word_digit_alt_marked (w s t : string) :
  forallb (fun u => negb (ci "_" u)) (list_ascii_of_string w) = true ->
  marked s t -> word_digit_alt w s = None -> word_digit_alt w t = None.
Proof.
  intros Hw Hm. unfold word_digit_alt.
  destruct (ci_prefix w t) as [[| b x] |] eqn:Ht; try reflexivity.
  destruct (ci_prefix_marked w Hw s t _ Hm Ht) as [x' [Hs Hx]].
  rewrite Hs. destruct x' as [| a x']; [contradiction |].
  destruct Hx as [Hab Hx].
  destruct (digit19 b && lookahead_ok x) eqn:E; [| reflexivity].
  apply andb_prop in E. destruct E as [Eb El].
  destruct Hab as [-> | ->]; [| discriminate].
  rewrite Eb, (lookahead_marked x' x Hx El). discriminate.
Qed.

Lemma match_reserved_marked (s t : string) :
  marked s t -> match_reserved s = None -> match_reserved t = None.
Proof.
  intros Hm. unfold match_reserved, orelse.
  destruct (word_alt "AUX" s) eqn:E1; [discriminate |].
  destruct (word_digit_alt "COM" s) eqn:E2; [discriminate |].
  destruct (word_alt "CON" s) eqn:E3; [discriminate |].
  destruct (word_digit_alt "LPT" s) eqn:E4; [discriminate |].
  destruct (word_alt "NUL" s) eqn:E5; [discriminate |].
  intros E6.
  rewrite (word_alt_marked "AUX" s t eq_refl Hm E1),
          (word_digit_alt_marked "COM" s t eq_refl Hm E2),
          (word_alt_marked "CON" s t eq_refl Hm E3),
          (word_digit_alt_marked "LPT" s t eq_refl Hm E4),
          (word_alt_marked "NUL" s t eq_refl Hm E5),
          (word_alt_marked "PRN" s t eq_refl Hm E6).
  reflexivity.
Qed.

Lemma match_reserved_under (t : string) : match_reserved (String "_" t) = None.
Proof. reflexivity. Qed.

Lemma fix_filename_under (t : string) :
  fix_filename (String "_" (fix_tail t)) = String "_" (fix_tail t).
Proof.
  unfold fix_filename at 1. rewrite match_reserved_under.
  change (bad_char "_") with false. change (Py.is_space "_") with false.
  change (false || Ascii.eqb "_" ".") with false. simpl andb.
  rewrite fix_tail_id; [reflexivity | apply fix_tail_no_bad | apply fix_tail_last_ok].
Qed.

Lemma dollar_fix_tail (r : string) : dollar (fix_tail r) = true -> dollar r = true.
Proof.
  destruct r as [| d r]; [reflexivity |].
  intros H. exfalso.
  pose proof (fix_tail_no_bad (String d r)) as Hn.
  destruct (fix_tail (String d r)) as [| x y] eqn:E.
  - simpl in E. destruct (bad_char d); [| destruct (_ && _)]; discriminate.
  - unfold dollar in H. apply orb_true_iff in H.
    destruct H as [H | H]; apply String.eqb_eq in H; [discriminate |].
    inversion H; subst. discriminate.
Qed.

Lemma fix_filename_cases (c : ascii) (r : string) :
  (exists t, fix_filename (String c r) = String "_" (fix_tail t))
  \/ (fix_filename (String c r) = String c (fix_tail r)
      /\ bad_char c = false /\ match_reserved (String c r) = None
      /\ Py.is_space c = false
      /\ (Py.is_space c || Ascii.eqb c ".") && dollar r = false).
Proof.
  unfold fix_filename.
  destruct (bad_char c) eqn:Hb; [left; eauto |].
  destruct (match_reserved (String c r)) eqn:Hm; [left; eauto |].
  destruct (Py.is_space c) eqn:Hs; [left; eauto |].
  destruct ((false || Ascii.eqb c ".") && dollar r) eqn:Hd; [left; eauto |].
  right. auto.
Qed.

(** C3: sanitizing twice gives the same result as sanitizing once. *)
Theorem fix_filename_idempotent (name : string) :
  fix_filename (fix_filename name) = fix_filename name.
Proof.
  destruct name as [| c r]; [reflexivity |].
  destruct (fix_filename_cases c r) as [[t Ht] | [Ho [Hb [Hm [Hs Hd]]]]].
  - rewrite Ht. apply fix_filename_under.
  - rewrite Ho. unfold fix_filename at 1. rewrite Hb.
    rewrite (match_reserved_marked (String c r) (String c (fix_tail r)))
      by (simpl; auto using fix_tail_marked).
    rewrite Hs in *. simpl orb in *.
    assert (Hd' : Ascii.eqb c "." && dollar (fix_tail r) = false).
    { destruct (Ascii.eqb c "."); [simpl in * | reflexivity].
      destruct (dollar (fix_tail r)) eqn:E; [| reflexivity].
      apply dollar_fix_tail in E. congruence. }
    rewrite Hd'.
    rewrite fix_tail_id; [reflexivity | apply fix_tail_no_bad | apply fix_tail_last_ok].
Qed.















End SanitizeFacts.

(* ------------------------------------------------------------------ *)
(** ** The matcher combinators *)

Module MatchFacts.
Import Urls.
Local Open Scope nat_scope.

Section Combinators.
Context {A : Type}.

Lemma lit_some (w s : string) (k : string -> option A) (x : A) :
  lit w s k = Some x -> exists r, s = w ++ r /\ k r = Some x.
Proof.
  revert s; induction w as [| u w IH]; intros s H.
  - exists s. destruct s; split; auto.
  - destruct s as [| c s]; simpl in H; [discriminate |].
    destruct (Ascii.eqb_spec c u) as [-> | _]; [| discriminate].
    destruct (IH s H) as [r [-> Hr]]. exists r. auto.
Qed.

Lemma lit_app (w r : string) (k : string -> option A) : lit w (w ++ r) k = k r.
Proof.
  induction w as [| u w IH]; [destruct r; reflexivity |].
  simpl. rewrite Ascii.eqb_refl. exact IH.
Qed.

Lemma opt_greedy_some (m : matcher) (s : string) (k : string -> option A) (x : A) :
  opt_greedy m s k = Some x -> m s k = Some x \/ k s = Some x.
Proof. unfold opt_greedy, Sanitize.orelse. destruct (m s k); auto. Qed.

Lemma star_greedy_some (p : ascii -> bool) (s : string) (k : string -> option A) (x : A) :
  star_greedy p s k = Some x ->
  exists w r, s = w ++ r /\ all p w = true /\ k r = Some x.
Proof.
  induction s as [| c s IH]; intros H.
  - exists "", "". auto.
  - simpl in H. destruct (p c) eqn:Hp.
    + unfold Sanitize.orelse in H. destruct (star_greedy p s k) eqn:E.
      * inversion H; subst. destruct (IH eq_refl) as [w [r [-> [Hw Hr]]]].
        exists (String c w), r. simpl. unfold all in *. simpl. rewrite Hp, Hw. auto.
      * exists "", (String c s). auto.
    + exists "", (String c s). auto.
Qed.

Lemma plus_greedy_some (p : ascii -> bool) (s : string) (k : string -> option A) (x : A) :
  plus_greedy p s k = Some x ->
  exists w r, s = w ++ r /\ w <> "" /\ all p w = true /\ k r = Some x.
Proof.
  destruct s as [| c s]; simpl; [discriminate |].
  destruct (p c) eqn:Hp; [| discriminate].
  intros H. destruct (star_greedy_some p s k x H) as [w [r [-> [Hw Hr]]]].
  exists (String c w), r. unfold all in *. simpl. rewrite Hp, Hw.
  repeat split; auto; discriminate.
Qed.

Lemma star_lazy_some (p : ascii -> bool) (s : string) (k : string -> option A) (x : A) :
  star_lazy p s k = Some x ->
  exists w r, s = w ++ r /\ all p w = true /\ k r = Some x.
Proof.
  induction s as [| c s IH]; intros H; simpl in H; unfold Sanitize.orelse in H.
  - destruct (k "") eqn:E; [| discriminate]. inversion H; subst.
    exists "", "". auto.
  - destruct (k (String c s)) eqn:E.
    + exists "", (String c s). inversion H; subst. auto.
    + destruct (p c) eqn:Hp; [| discriminate].
      destruct (IH H) as [w [r [-> [Hw Hr]]]].
      exists (String c w), r. unfold all in *. simpl. rewrite Hp, Hw. auto.
Qed.

Lemma plus_lazy_some (p : ascii -> bool) (s : string) (k : string -> option A) (x : A) :
  plus_lazy p s k = Some x ->
  exists w r, s = w ++ r /\ w <> "" /\ all p w = true /\ k r = Some x.
Proof.
  destruct s as [| c s]; simpl; [discriminate |].
  destruct (p c) eqn:Hp; [| discriminate].
  intros H. destruct (star_lazy_some p s k x H) as [w [r [-> [Hw Hr]]]].
  exists (String c w), r. unfold all in *. simpl. rewrite Hp, Hw.
  repeat split; auto; discriminate.
Qed.

Lemma take_n_some (n : nat) (p : ascii -> bool) (s g r : string) :
  take_n n p s = Some (g, r) ->
  s = g ++ r /\ String.length g = n /\ all p g = true.
Proof.
  revert s g r; induction n as [| n IH]; intros s g r H; simpl in H.
  - inversion H; subst. auto.
  - destruct s as [| c s]; [discriminate |].
    destruct (p c) eqn:Hp; [| discriminate].
    destruct (take_n n p s) as [[g' r'] |] eqn:E; [| discriminate].
    inversion H; subst. destruct (IH _ _ _ E) as [-> [Hl Ha]].
    unfold all in *. simpl. rewrite Hp, Ha. auto.
Qed.

Lemma take_n_app (p : ascii -> bool) (g r : string) :
  all p g = true -> take_n (String.length g) p (g ++ r) = Some (g, r).
Proof.
  induction g as [| c g IH]; intros H; [reflexivity |].
  unfold all in H. simpl in H. apply andb_prop in H. destruct H as [Hc Hg].
  simpl. rewrite Hc, IH by exact Hg. reflexivity.
Qed.

Lemma group_some (n : nat) (p : ascii -> bool) (s : string)
  (k : string -> string -> option A) (x : A) :
  group n p s k = Some x ->
  exists g r, s = g ++ r /\ String.length g = n /\ all p g = true /\ k g r = Some x.
Proof.
  unfold group. destruct (take_n n p s) as [[g r] |] eqn:E; [| discriminate].
  intros H. destruct (take_n_some n p s g r E) as [-> [Hl Ha]]. eauto 6.
Qed.

Lemma star_greedy_stop (p : ascii -> bool) (v : string) (c : ascii) (r : string)
  (k : string -> option A) (x : A) :
  all p v = true -> p c = false -> k (String c r) = Some x ->
  star_greedy p (v ++ String c r) k = Some x.
Proof.
  intros Hv Hc Hk. induction v as [| d v IH]; simpl.
  - rewrite Hc. exact Hk.
  - unfold all in Hv. simpl in Hv. apply andb_prop in Hv. destruct Hv as [Hd Hv].
    rewrite Hd, IH by exact Hv. reflexivity.
Qed.

Lemma star_lazy_end (p : ascii -> bool) (v : string) (k : string -> option A) (x : A) :
  all p v = true -> k "" = Some x ->
  (forall t, t <> "" -> all p t = true -> k t = None) ->
  star_lazy p v k = Some x.
Proof.
  intros Hv Hk Hn. induction v as [| d v IH]; simpl; unfold Sanitize.orelse.
  - rewrite Hk. reflexivity.
  - rewrite Hn by (discriminate || exact Hv).
    unfold all in Hv. simpl in Hv. apply andb_prop in Hv. destruct Hv as [Hd Hv].
    rewrite Hd. apply IH. exact Hv.
Qed.

End Combinators.

End MatchFacts.

(* ------------------------------------------------------------------ *)
(** ** [regex_input_for_urls] *)

Module UrlFacts.
Import Urls MatchFacts.
Local Open Scope nat_scope.

Lemma valid_id_intro (g : string) :
  String.length g = 22 -> all is_id_char g = true -> valid_id g = true.
Proof.
  intros Hl Ha. unfold valid_id. rewrite Hl. exact Ha.
Qed.

Lemma prefix_app (w r : string) : String.prefix w (w ++ r) = true.
Proof.
  induction w as [| c w IH]; [destruct r; reflexivity |].
  simpl. destruct (ascii_dec c c); [exact IH | congruence].
Qed.

(** what the [$] continuation returns *)
Lemma dollar_k_some (g q id : string) :
  (if Sanitize.dollar q then Some g else None) = Some id ->
  g = id /\ Sanitize.dollar q = true.
Proof. destruct (Sanitize.dollar q); intros H; inversion H; auto. Qed.

Lemma uri_search_shape (ty s id : string) :
  uri_search ty s = Some id ->
  exists q, s = "spotify:" ++ ty ++ ":" ++ id ++ q
            /\ valid_id id = true /\ Sanitize.dollar q = true.
Proof.
  unfold uri_search. intros H.
  destruct (lit_some _ _ _ _ H) as [r [-> Hr]].
  destruct (group_some _ _ _ _ _ Hr) as [g [q [-> [Hl [Ha Hk]]]]].
  destruct (dollar_k_some _ _ _ Hk) as [<- Hd].
  exists q. rewrite !StrFacts.app_assoc. simpl.
  repeat split; auto using valid_id_intro.
Qed.

Lemma url_rest_shape (ty s id : string) :
  url_rest ty s = Some id ->
  exists w q, intl_seg w
              /\ s = "open.spotify.com" ++ w ++ "/" ++ ty ++ "/" ++ id ++ q
              /\ valid_id id = true /\ tail_ok q = true.
Proof.
  unfold url_rest. intros H.
  destruct (lit_some _ _ _ _ H) as [r1 [-> H1]].
  destruct (opt_greedy_some _ _ _ _ H1) as [H2 | H2].
  - unfold intl_part in H2.
    destruct (lit_some _ _ _ _ H2) as [r2 [-> H3]].
    destruct (plus_greedy_some _ _ _ _ H3) as [v [r3 [-> [Hv [Hw H4]]]]].
    destruct (lit_some _ _ _ _ H4) as [r4 [-> H5]].
    destruct (group_some _ _ _ _ _ H5) as [g [r5 [-> [Hl [Ha H6]]]]].
    destruct (opt_greedy_some _ _ _ _ H6) as [H7 | H7].
    + unfold si_part in H7.
      destruct (lit_some _ _ _ _ H7) as [r6 [-> H8]].
      destruct (plus_lazy_some _ _ _ _ H8) as [y [r7 [-> [_ [_ H9]]]]].
      destruct (dollar_k_some _ _ _ H9) as [<- _].
      exists ("/intl-" ++ v), ("?si=" ++ y ++ r7).
      split; [right; eauto |].
      rewrite !StrFacts.app_assoc. simpl.
      repeat split; auto using valid_id_intro.
      unfold tail_ok. apply orb_true_iff. right. exact (prefix_app "?si=" (y ++ r7)).
    + destruct (dollar_k_some _ _ _ H7) as [<- Hd].
      exists ("/intl-" ++ v), r5.
      split; [right; eauto |].
      rewrite !StrFacts.app_assoc. simpl.
      repeat split; auto using valid_id_intro.
      unfold tail_ok. rewrite Hd. reflexivity.
  - destruct (lit_some _ _ _ _ H2) as [r4 [-> H5]].
    destruct (group_some _ _ _ _ _ H5) as [g [r5 [-> [Hl [Ha H6]]]]].
    destruct (opt_greedy_some _ _ _ _ H6) as [H7 | H7].
    + unfold si_part in H7.
      destruct (lit_some _ _ _ _ H7) as [r6 [-> H8]].
      destruct (plus_lazy_some _ _ _ _ H8) as [y [r7 [-> [_ [_ H9]]]]].
      destruct (dollar_k_some _ _ _ H9) as [<- _].
      exists "", ("?si=" ++ y ++ r7).
      split; [left; reflexivity |].
      rewrite !StrFacts.app_assoc. simpl.
      repeat split; auto using valid_id_intro.
      unfold tail_ok. apply orb_true_iff. right. exact (prefix_app "?si=" (y ++ r7)).
    + destruct (dollar_k_some _ _ _ H7) as [<- Hd].
      exists "", r5.
      split; [left; reflexivity |].
      rewrite !StrFacts.app_assoc. simpl.
      repeat split; auto using valid_id_intro.
      unfold tail_ok. rewrite Hd. reflexivity.
Qed.

Lemma url_search_shape (ty s id : string) :
  url_search ty s = Some id ->
  exists p w q, scheme p /\ intl_seg w
    /\ s = p ++ "open.spotify.com" ++ w ++ "/" ++ ty ++ "/" ++ id ++ q
    /\ valid_id id = true /\ tail_ok q = true.
Proof.
  unfold url_search. intros H.
  destruct (opt_greedy_some _ _ _ _ H) as [H1 | H1].
  - unfold scheme_part in H1.
    destruct (lit_some _ _ _ _ H1) as [r1 [-> H2]].
    destruct (opt_greedy_some _ _ _ _ H2) as [H3 | H3].
    + destruct (lit_some _ _ _ _ H3) as [r2 [-> H4]].
      destruct (lit_some _ _ _ _ H4) as [r3 [-> H5]].
      destruct (url_rest_shape _ _ _ H5) as [w [q [Hw [-> Hq]]]].
      exists "https://", w, q. split; [right; right; reflexivity |]. auto.
    + destruct (lit_some _ _ _ _ H3) as [r3 [-> H5]].
      destruct (url_rest_shape _ _ _ H5) as [w [q [Hw [-> Hq]]]].
      exists "http://", w, q. split; [right; left; reflexivity |]. auto.
  - destruct (url_rest_shape _ _ _ H1) as [w [q [Hw [-> Hq]]]].
    exists "", w, q. split; [left; reflexivity |]. auto.
Qed.

Lemma sep_split (c : ascii) (a b x y : string) :
  no_char c a = true -> no_char c b = true ->
  a ++ String c x = b ++ String c y -> a = b /\ x = y.
Proof.
  unfold no_char. revert b; induction a as [| d a IH]; intros b Ha Hb H;
    destruct b as [| e b]; simpl in *.
  - inversion H. auto.
  - inversion H; subst. rewrite Ascii.eqb_refl in Hb. discriminate.
  - inversion H; subst. rewrite Ascii.eqb_refl in Ha. discriminate.
  - apply andb_prop in Ha, Hb. destruct Ha as [_ Ha], Hb as [_ Hb].
    inversion H; subst. destruct (IH b Ha Hb H2) as [-> ->]. auto.
Qed.

Lemma all_no_char (p : ascii -> bool) (c : ascii) (v : string) :
  all p v = true -> p c = false -> no_char c v = true.
Proof.
  intros Hv Hc. unfold all, no_char in *. rewrite forallb_forall in *.
  intros u Hu. specialize (Hv u Hu).
  destruct (Ascii.eqb_spec u c) as [-> | _]; [congruence | reflexivity].
Qed.

Lemma length_split (a b x y : string) :
  String.length a = String.length b -> a ++ x = b ++ y -> a = b /\ x = y.
Proof.
  revert b; induction a as [| d a IH]; intros b Hl H; destruct b as [| e b];
    simpl in *; try discriminate; [auto |].
  inversion H; subst. destruct (IH b) as [-> ->]; auto.
Qed.

Lemma valid_id_length (id : string) : valid_id id = true -> String.length id = 22.
Proof.
  unfold valid_id. intros H. apply andb_prop in H. destruct H as [H _].
  apply Nat.eqb_eq. exact H.
Qed.

Lemma ids_split (a b x y : string) :
  valid_id a = true -> valid_id b = true -> a ++ x = b ++ y -> a = b /\ x = y.
Proof.
  intros Ha Hb. apply length_split.
  rewrite (valid_id_length a Ha), (valid_id_length b Hb). reflexivity.
Qed.

Ltac unpack_ty H Hc Hi :=
  unfold ty_ok in H; apply andb_prop in H; destruct H as [H Hi];
  apply andb_prop in H; destruct H as [H Hc].

(** the scheme, the [intl-] segment, the type and what follows are
    determined by a URL *)
Lemma url_inj (p1 p2 w1 w2 t1 t2 r1 r2 : string) :
  scheme p1 -> scheme p2 -> intl_seg w1 -> intl_seg w2 ->
  ty_ok t1 = true -> ty_ok t2 = true ->
  p1 ++ "open.spotify.com" ++ w1 ++ "/" ++ t1 ++ "/" ++ r1
  = p2 ++ "open.spotify.com" ++ w2 ++ "/" ++ t2 ++ "/" ++ r2 ->
  p1 = p2 /\ w1 = w2 /\ t1 = t2 /\ r1 = r2.
Proof.
  intros Hp1 Hp2 Hw1 Hw2 Ht1 Ht2 H.
  assert (Hp : p1 = p2).
  { destruct Hp1 as [-> | [-> | ->]], Hp2 as [-> | [-> | ->]];
      simpl in H; try reflexivity; discriminate. }
  subst p2. apply StrFacts.app_inv_l in H.
  apply (StrFacts.app_inv_l "open.spotify.com") in H.
  unpack_ty Ht1 Hc1 Hi1. unpack_ty Ht2 Hc2 Hi2.
  destruct Hw1 as [-> | [v1 [-> [Hv1 Hwv1]]]], Hw2 as [-> | [v2 [-> [Hv2 Hwv2]]]].
  - simpl in H. inversion H as [H'].
    destruct (sep_split "/" t1 t2 r1 r2 Ht1 Ht2 H') as [-> ->]. auto.
  - simpl in H. inversion H as [H'].
    destruct t1 as [| d t1]; simpl in H'; inversion H'; subst.
    destruct t1; cbv in Hi1; discriminate.
  - simpl in H. inversion H as [H'].
    destruct t2 as [| d t2]; simpl in H'; inversion H'; subst.
    destruct t2; cbv in Hi2; discriminate.
  - rewrite !StrFacts.app_assoc in H. apply StrFacts.app_inv_l in H.
    destruct (sep_split "/" v1 v2 _ _ (all_no_char _ "/" _ Hwv1 eq_refl)
                (all_no_char _ "/" _ Hwv2 eq_refl) H) as [-> H'].
    destruct (sep_split "/" t1 t2 r1 r2 Ht1 Ht2 H') as [-> ->]. auto.
Qed.

Lemma uri_inj (t1 t2 r1 r2 : string) :
  ty_ok t1 = true -> ty_ok t2 = true ->
  "spotify:" ++ t1 ++ ":" ++ r1 = "spotify:" ++ t2 ++ ":" ++ r2 ->
  t1 = t2 /\ r1 = r2.
Proof.
  intros Ht1 Ht2 H. unpack_ty Ht1 Hc1 Hi1. unpack_ty Ht2 Hc2 Hi2.
  apply StrFacts.app_inv_l in H.
  exact (sep_split ":" t1 t2 r1 r2 Hc1 Hc2 H).
Qed.

Lemma uri_url_disjoint (p x y : string) :
  scheme p -> "spotify:" ++ x <> p ++ "open.spotify.com" ++ y.
Proof.
  intros [-> | [-> | ->]]; simpl; discriminate.
Qed.

Lemma slot_shape (ty s id : string) :
  slot ty s = Some id ->
  (exists q, s = "spotify:" ++ ty ++ ":" ++ id ++ q
             /\ valid_id id = true /\ Sanitize.dollar q = true)
  \/ (exists p w q, scheme p /\ intl_seg w
        /\ s = p ++ "open.spotify.com" ++ w ++ "/" ++ ty ++ "/" ++ id ++ q
        /\ valid_id id = true /\ tail_ok q = true).
Proof.
  unfold slot. destruct (uri_search ty s) eqn:E; intros H.
  - inversion H; subst. left. apply uri_search_shape. exact E.
  - right. apply url_search_shape. exact H.
Qed.

(** two slots that both matched one input are the same slot, with the same id *)
Lemma slot_exclusive (t1 t2 s a b : string) :
  ty_ok t1 = true -> ty_ok t2 = true ->
  slot t1 s = Some a -> slot t2 s = Some b -> t1 = t2 /\ a = b.
Proof.
  intros Ht1 Ht2 H1 H2.
  destruct (slot_shape _ _ _ H1) as [[q1 [E1 [Ha _]]] | [p1 [w1 [q1 [Hp1 [Hw1 [E1 [Ha _]]]]]]]],
           (slot_shape _ _ _ H2) as [[q2 [E2 [Hb _]]] | [p2 [w2 [q2 [Hp2 [Hw2 [E2 [Hb _]]]]]]]];
    rewrite E1 in E2.
  - destruct (uri_inj _ _ _ _ Ht1 Ht2 E2) as [-> E].
    destruct (ids_split _ _ _ _ Ha Hb E) as [-> _]. auto.
  - exfalso. exact (uri_url_disjoint _ _ _ Hp2 E2).
  - exfalso. symmetry in E2. exact (uri_url_disjoint _ _ _ Hp1 E2).
  - destruct (url_inj _ _ _ _ _ _ _ _ Hp1 Hp2 Hw1 Hw2 Ht1 Ht2 E2) as [_ [_ [-> E]]].
    destruct (ids_split _ _ _ _ Ha Hb E) as [-> _]. auto.
Qed.

Lemma types_ok : forallb ty_ok types = true.
Proof. reflexivity. Qed.

Lemma ty_ok_types (ty : string) : In ty types -> ty_ok ty = true.
Proof.
  intros H. pose proof types_ok as T. rewrite forallb_forall in T. auto.
Qed.

Definition is_some (o : option string) : bool :=
  match o with Some _ => true | None => false end.

Lemma filter_none (f : string -> option string) (l : list string) :
  (forall b, In b l -> f b = None) -> filter is_some (map f l) = [].
Proof.
  induction l as [| b l IH]; intros H; [reflexivity |]. simpl.
  rewrite (H b (or_introl eq_refl)). simpl. apply IH. intros c Hc. apply H. now right.
Qed.

Lemma at_most_one_of_list (f : string -> option string) (l : list string) :
  NoDup l ->
  (forall a b, In a l -> In b l -> f a <> None -> f b <> None -> a = b) ->
  List.length (filter is_some (map f l)) <= 1.
Proof.
  induction l as [| a l IH]; intros Hnd Hex; simpl; [lia |].
  inversion Hnd as [| ? ? Hnin Hnd']; subst.
  destruct (f a) as [x |] eqn:Ea; simpl.
  - assert (Hrest : filter is_some (map f l) = []).
    { apply filter_none. intros b Hb.
      destruct (f b) as [y |] eqn:Eb; [exfalso | reflexivity].
      assert (b = a) as ->.
      { apply Hex; [now right | now left | rewrite Eb | rewrite Ea]; discriminate. }
      exact (Hnin Hb). }
    rewrite Hrest. simpl. lia.
  - apply IH; auto. intros c d Hc Hd. apply Hex; simpl; auto.
Qed.

(** C2: at most one slot of the result is not [None]. *)
Theorem at_most_one_slot (search_input : string) :
  List.length (filter is_some (slots (regex_input_for_urls search_input))) <= 1.
Proof.
  rewrite slots_regex_input_for_urls.
  apply at_most_one_of_list.
  - repeat constructor; simpl; intuition discriminate.
  - intros a b Ha Hb Hfa Hfb.
    destruct (slot a search_input) as [x |] eqn:Ea; [| congruence].
    destruct (slot b search_input) as [y |] eqn:Eb; [| congruence].
    apply (slot_exclusive a b search_input x y); auto using ty_ok_types.
Qed.

Lemma uri_search_other (ty : string) (c : ascii) (x : string) :
  c <> "s"%char -> uri_search ty (String c x) = None.
Proof.
  intros Hc. unfold uri_search. simpl.
  destruct (Ascii.eqb_spec c "s"); [congruence | reflexivity].
Qed.

Lemma url_search_https (ty u : string) :
  url_search ty ("https://" ++ u) = url_rest ty u.
Proof.
  unfold url_search, scheme_part, opt_greedy. cbn -[url_rest].
  destruct (url_rest ty u); reflexivity.
Qed.

Lemma url_search_http (ty u : string) :
  url_search ty ("http://" ++ u) = url_rest ty u.
Proof.
  unfold url_search, scheme_part, opt_greedy. cbn -[url_rest].
  destruct (url_rest ty u); reflexivity.
Qed.

Lemma url_search_open (ty u : string) :
  url_search ty ("open.spotify.com" ++ u) = url_rest ty ("open.spotify.com" ++ u).
Proof.
  unfold url_search, scheme_part, opt_greedy. cbn -[url_rest]. reflexivity.
Qed.

(** with or without a scheme, a URL is parsed by the part after it *)
Lemma slot_scheme (ty p u : string) :
  scheme p ->
  slot ty (p ++ "open.spotify.com" ++ u) = url_rest ty ("open.spotify.com" ++ u).
Proof.
  intros Hp.
  assert (Hu : uri_search ty (p ++ "open.spotify.com" ++ u) = None)
    by (destruct Hp as [-> | [-> | ->]]; apply uri_search_other; discriminate).
  unfold slot. rewrite Hu. destruct Hp as [-> | [-> | ->]].
  - apply url_search_open.
  - apply url_search_http.
  - apply url_search_https.
Qed.

Lemma lit_intl_type (ty r : string) (k : string -> option string) :
  ty_ok ty = true -> lit "/intl-" ("/" ++ ty ++ "/" ++ r) k = None.
Proof.
  intros Ht. unpack_ty Ht Hc Hi.
  destruct ty as [| c ty]; [reflexivity |].
  simpl. destruct (Ascii.eqb_spec c "i") as [-> | _]; [| reflexivity].
  destruct ty; cbv in Hi; discriminate.
Qed.

Lemma url_rest_match (ty id w q : string) :
  ty_ok ty = true -> valid_id id = true -> intl_seg w -> si_tail q \/ q = String "010" "" ->
  url_rest ty ("open.spotify.com" ++ w ++ "/" ++ ty ++ "/" ++ id ++ q) = Some id.
Proof.
  intros Ht Hid Hw Hq. unfold url_rest. rewrite lit_app.
  match goal with |- opt_greedy _ _ ?k = _ => set (K := k) end.
  assert (HK : K ("/" ++ ty ++ "/" ++ id ++ q) = Some id).
  { subst K. cbv beta.
    replace ("/" ++ ty ++ "/" ++ id ++ q) with (("/" ++ ty ++ "/") ++ id ++ q)
      by (rewrite !StrFacts.app_assoc; reflexivity).
    rewrite lit_app. unfold group.
    rewrite <- (valid_id_length id Hid) at 1.
    unfold valid_id in Hid. apply andb_prop in Hid. destruct Hid as [_ Hid].
    rewrite take_n_app by exact Hid.
    destruct Hq as [[-> | [x [-> [Hx Hnl]]]] | ->].
    - reflexivity.
    - unfold opt_greedy, si_part. rewrite lit_app.
      destruct x as [| c x]; [congruence |].
      unfold all in Hnl. simpl in Hnl. apply andb_prop in Hnl. destruct Hnl as [Hc Hnl].
      simpl plus_lazy. rewrite Hc.
      rewrite (star_lazy_end not_nl x _ id Hnl eq_refl); [reflexivity |].
      intros t Ht0 Hat. unfold Sanitize.dollar.
      destruct (String.eqb_spec t "") as [E | _]; [congruence |].
      destruct (String.eqb_spec t (String "010" "")) as [E | _]; [| reflexivity].
      subst t. discriminate.
    - reflexivity. }
  destruct Hw as [-> | [v [-> [Hv Hwv]]]].
  - unfold opt_greedy, intl_part. simpl (EmptyString ++ _).
    change (String "/" (ty ++ String "/" (id ++ q))) with ("/" ++ ty ++ "/" ++ id ++ q).
    rewrite lit_intl_type by exact Ht. exact HK.
  - unfold opt_greedy, intl_part.
    rewrite StrFacts.app_assoc, lit_app.
    destruct v as [| c v]; [congruence |].
    unfold all in Hwv. simpl in Hwv. apply andb_prop in Hwv. destruct Hwv as [Hc Hwv].
    simpl plus_greedy. rewrite Hc.
    rewrite (star_greedy_stop is_word v "/" (ty ++ String "/" (id ++ q)) K id Hwv eq_refl HK). reflexivity.
Qed.

Lemma slot_url_match (ty id p w q : string) :
  ty_ok ty = true -> valid_id id = true -> scheme p -> intl_seg w -> si_tail q ->
  slot ty (p ++ "open.spotify.com" ++ w ++ "/" ++ ty ++ "/" ++ id ++ q) = Some id.
Proof.
  intros Ht Hid Hp Hw Hq. rewrite slot_scheme by exact Hp.
  apply url_rest_match; auto.
Qed.

(** Python's [$] also matches before a final newline *)
Lemma slot_url_match_nl (ty id p w : string) :
  ty_ok ty = true -> valid_id id = true -> scheme p -> intl_seg w ->
  slot ty (p ++ "open.spotify.com" ++ w ++ "/" ++ ty ++ "/" ++ id ++ String "010" "")
  = Some id.
Proof.
  intros Ht Hid Hp Hw. rewrite slot_scheme by exact Hp.
  apply url_rest_match; auto.
Qed.

Lemma uri_search_match (ty id q : string) :
  valid_id id = true -> Sanitize.dollar q = true ->
  uri_search ty ("spotify:" ++ ty ++ ":" ++ id ++ q) = Some id.
Proof.
  intros Hid Hq. unfold uri_search.
  replace ("spotify:" ++ ty ++ ":" ++ id ++ q) with (("spotify:" ++ ty ++ ":") ++ id ++ q)
    by (rewrite !StrFacts.app_assoc; reflexivity).
  rewrite lit_app. unfold group.
  rewrite <- (valid_id_length id Hid) at 1.
  unfold valid_id in Hid. apply andb_prop in Hid. destruct Hid as [_ Hid].
  rewrite take_n_app by exact Hid. rewrite Hq. reflexivity.
Qed.

Lemma slot_uri_match (ty id q : string) :
  valid_id id = true -> Sanitize.dollar q = true ->
  slot ty ("spotify:" ++ ty ++ ":" ++ id ++ q) = Some id.
Proof. intros Hid Hq. unfold slot. rewrite uri_search_match by assumption. reflexivity. Qed.

Lemma slots_only (ty id s : string) :
  In ty types -> slot ty s = Some id ->
  slots (regex_input_for_urls s) = only_slot ty id.
Proof.
  intros Hty H. rewrite slots_regex_input_for_urls. unfold only_slot.
  apply map_ext_in. intros t Ht.
  destruct (String.eqb_spec t ty) as [-> | Hne]; [exact H |].
  destruct (slot t s) as [b |] eqn:E; [exfalso | reflexivity].
  destruct (slot_exclusive t ty s b id) as [-> _]; auto using ty_ok_types.
Qed.

Lemma all_none_intro (s : string) :
  (forall t, In t types -> slot t s = None) -> all_none (regex_input_for_urls s) = true.
Proof.
  intros H. unfold all_none. rewrite slots_regex_input_for_urls.
  apply forallb_forall. intros o Ho. apply in_map_iff in Ho.
  destruct Ho as [t [<- Ht]]. rewrite H by exact Ht. reflexivity.
Qed.

Lemma prefix_inv (w q : string) : String.prefix w q = true -> exists x, q = w ++ x.
Proof.
  revert q; induction w as [| c w IH]; intros q H; [exists q; reflexivity |].
  destruct q as [| d q]; [discriminate |]. simpl in H.
  destruct (ascii_dec c d) as [-> |]; [| discriminate].
  destruct (IH q H) as [x ->]. exists x. reflexivity.
Qed.

Lemma dollar_cases (q : string) :
  Sanitize.dollar q = true -> q = "" \/ q = String "010" "".
Proof.
  unfold Sanitize.dollar. intros H. apply orb_prop in H.
  destruct H as [H | H]; apply String.eqb_eq in H; auto.
Qed.

Lemma tail_ok_cases (q : string) :
  tail_ok q = true ->
  q = "" \/ q = String "010" "" \/ exists x, q = "?si=" ++ x.
Proof.
  unfold tail_ok. intros H. apply orb_prop in H. destruct H as [H | H].
  - destruct (dollar_cases q H); auto.
  - right; right. apply prefix_inv. exact H.
Qed.

Lemma no_char_sep (c : ascii) (a b : string) : no_char c (a ++ String c b) = false.
Proof.
  unfold no_char. induction a as [| d a IH]; simpl.
  - rewrite Ascii.eqb_refl. reflexivity.
  - rewrite IH. apply andb_false_r.
Qed.

(** a URI whose text after [spotify:<type>:] is no valid id followed by an
    end of line matches no slot *)
Lemma uri_none (ty r : string) :
  ty_ok ty = true ->
  (forall id q, valid_id id = true -> r = id ++ q -> Sanitize.dollar q = false) ->
  all_none (regex_input_for_urls ("spotify:" ++ ty ++ ":" ++ r)) = true.
Proof.
  intros Hty Hr. apply all_none_intro. intros t Ht.
  destruct (slot t _) as [b |] eqn:E; [exfalso | reflexivity].
  destruct (slot_shape _ _ _ E)
    as [[q [Es [Hb Hq]]] | [p [w [q [Hp [Hw [Es _]]]]]]].
  - destruct (uri_inj ty t r (b ++ q) Hty (ty_ok_types t Ht) Es) as [_ Er].
    rewrite (Hr b q Hb Er) in Hq. discriminate.
  - exact (uri_url_disjoint p _ _ Hp Es).
Qed.

(** a URL whose text after [<type>/] is no valid id followed by an
    accepted tail matches no slot *)
Lemma url_none (ty p w r : string) :
  ty_ok ty = true -> scheme p -> intl_seg w ->
  (forall id q, valid_id id = true -> r = id ++ q -> tail_ok q = false) ->
  all_none (regex_input_for_urls (p ++ "open.spotify.com" ++ w ++ "/" ++ ty ++ "/" ++ r))
  = true.
Proof.
  intros Hty Hp Hw Hr. apply all_none_intro. intros t Ht.
  destruct (slot t _) as [b |] eqn:E; [exfalso | reflexivity].
  destruct (slot_shape _ _ _ E)
    as [[q [Es _]] | [p2 [w2 [q [Hp2 [Hw2 [Es [Hb Hq]]]]]]]].
  - symmetry in Es. exact (uri_url_disjoint p _ _ Hp Es).
  - destruct (url_inj p p2 w w2 ty t r (b ++ q) Hp Hp2 Hw Hw2 Hty (ty_ok_types t Ht) Es)
      as [_ [_ [_ Er]]].
    rewrite (Hr b q Hb Er) in Hq. discriminate.
Qed.

Lemma slot_open (ty u : string) :
  slot ty ("open.spotify.com" ++ u) = url_rest ty ("open.spotify.com" ++ u).
Proof. exact (slot_scheme ty "" u (or_introl eq_refl)). Qed.

(** the scheme of a URL does not change the result *)
Lemma regex_scheme (p u : string) :
  scheme p ->
  regex_input_for_urls (p ++ "open.spotify.com" ++ u)
  = regex_input_for_urls ("open.spotify.com" ++ u).
Proof.
  intros Hp. unfold regex_input_for_urls.
  rewrite !(slot_scheme _ p u Hp), !slot_open. reflexivity.
Qed.

(** [C5] For every resource type and 22-character alphanumeric id, a URL
    (any accepted scheme, optional [/intl-xx] segment) followed by nothing
    or by [?si=] and one or more characters other than a newline fills
    exactly the slot of that type with the id; followed by [?] and a query
    that does not begin with [si=] (such as [?utm=1]) it fills no slot.
    A URI [spotify:<type>:<id>] followed by [?] and any query fills no slot. *)
Theorem url_query_forms (ty id p w q : string) :
  In ty types -> valid_id id = true -> scheme p -> intl_seg w ->
  (si_tail q ->
   slots (regex_input_for_urls
            (p ++ "open.spotify.com" ++ w ++ "/" ++ ty ++ "/" ++ id ++ q))
   = only_slot ty id)
  /\ (String.prefix "si=" q = false ->
      all_none (regex_input_for_urls
                  (p ++ "open.spotify.com" ++ w ++ "/" ++ ty ++ "/" ++ id ++ "?" ++ q))
      = true)
  /\ all_none (regex_input_for_urls ("spotify:" ++ ty ++ ":" ++ id ++ "?" ++ q)) = true.
Proof.
  intros Hty Hid Hp Hw. pose proof (ty_ok_types ty Hty) as Hok.
  split; [| split].
  - intros Hq. apply slots_only; [exact Hty |].
    apply slot_url_match; assumption.
  - intros Hsi. apply url_none; [exact Hok | exact Hp | exact Hw |].
    intros b t Hb E. destruct (ids_split id b _ _ Hid Hb E) as [_ <-].
    unfold tail_ok. simpl. exact Hsi.
  - apply uri_none; [exact Hok |].
    intros b t Hb E. destruct (ids_split id b _ _ Hid Hb E) as [_ <-].
    reflexivity.
Qed.

Lemma url_query_forms_witness :
  (In "track" types /\ valid_id id0 = true /\ scheme "https://" /\ intl_seg "")
  /\ all_none (regex_input_for_urls
               ("https://" ++ "open.spotify.com" ++ "" ++ "/" ++ "track" ++ "/"
                ++ id0 ++ "?" ++ "utm=1")) = true.
Proof.
  split.
  - split; [simpl; auto | split; [reflexivity | split; [right; right; reflexivity | left; reflexivity]]].
  - refine (proj1 (proj2 (url_query_forms "track" id0 "https://" "" "utm=1" _ _ _ _)) _).
    + simpl; auto.
    + reflexivity.
    + right; right; reflexivity.
    + left; reflexivity.
    + reflexivity.
Defined.

(** [C5] counterexample: a URL with the query [?utm=1] fills no slot *)
Lemma url_other_query_rejected :
  valid_id id0 = true
  /\ all_none (regex_input_for_urls
               ("https://open.spotify.com/track/" ++ id0 ++ "?utm=1")) = true.
Proof. split; reflexivity. Qed.

Lemma app_split (a b c d : string) :
  a ++ b = c ++ d ->
  (exists m, a = c ++ m /\ d = m ++ b) \/ (exists m, c = a ++ m /\ b = m ++ d).
Proof.
  revert c; induction a as [| x a IH]; intros c H.
  - right. exists c. split; [reflexivity | exact H].
  - destruct c as [| y c].
    + left. exists (String x a). split; [reflexivity | symmetry; exact H].
    + simpl in H. injection H as -> H.
      destruct (IH c H) as [[m [-> E]] | [m [-> E]]]; [left | right];
        exists m; split; auto.
Qed.

Lemma valid_id_char (a b : string) (c : ascii) :
  valid_id (a ++ String c b) = true -> is_id_char c = true.
Proof.
  unfold valid_id. intros H. apply andb_prop in H. destruct H as [_ H].
  induction a as [| d a IH]; simpl in H; apply andb_prop in H; destruct H as [Hd H];
    [exact Hd | exact (IH H)].
Qed.

(** [C6] Let [r] be the identifier part of a URI [spotify:<type>:r] or
    of a URL [<scheme>open.spotify.com[/intl-xx]/<type>/r<query>] (the
    text up to the query, so without [?]; the query is empty or starts
    with [?]), and let [r] not be 22 characters of [0-9a-zA-Z].  Then all
    six slots are [None] (the function is total: there is no exception),
    unless [r] is such an id followed by a single newline that ends the
    input: that form fills the slot of its type with the id, in the URI
    and in the URL form. *)
Theorem malformed_id_no_match (ty r p w q : string) :
  In ty types -> scheme p -> intl_seg w -> valid_id r = false ->
  ((forall id, valid_id id = true -> r <> id ++ String "010" "") ->
   all_none (regex_input_for_urls ("spotify:" ++ ty ++ ":" ++ r)) = true)
  /\ (no_char "?" r = true -> (q = "" \/ exists x, q = String "?" x) ->
      (q = "" -> forall id, valid_id id = true -> r <> id ++ String "010" "") ->
      all_none (regex_input_for_urls
                  (p ++ "open.spotify.com" ++ w ++ "/" ++ ty ++ "/" ++ r ++ q)) = true)
  /\ (forall id, valid_id id = true -> r = id ++ String "010" "" ->
      slots (regex_input_for_urls ("spotify:" ++ ty ++ ":" ++ r)) = only_slot ty id
      /\ slots (regex_input_for_urls
                  (p ++ "open.spotify.com" ++ w ++ "/" ++ ty ++ "/" ++ r))
         = only_slot ty id).
Proof.
  intros Hty Hp Hw Hr. pose proof (ty_ok_types ty Hty) as Hok.
  split; [| split].
  - intros Hnl. apply uri_none; [exact Hok |].
    intros id q' Hid E. destruct (Sanitize.dollar q') eqn:Hq; [exfalso | reflexivity].
    destruct (dollar_cases q' Hq) as [-> | ->].
    + rewrite StrFacts.app_nil_r in E. subst r. congruence.
    + exact (Hnl id Hid E).
  - intros Hc Hq Hnl.
    apply url_none; [exact Hok | exact Hp | exact Hw |].
    intros id q' Hid E.
    destruct (app_split r q id q' E) as [[m [Er Eq]] | [m [Ei Eq]]].
    + destruct m as [| c m].
      * rewrite StrFacts.app_nil_r in Er. subst r. congruence.
      * subst q'. unfold tail_ok.
        assert (Hc' : c <> "?"%char)
          by (intros ->; subst r; rewrite no_char_sep in Hc; discriminate).
        assert (Hpre : String.prefix "?si=" (String c m ++ q) = false).
        { cbn [String.prefix append].
          destruct (ascii_dec "?" c) as [E0 | _]; [congruence | reflexivity]. }
        rewrite Hpre, orb_false_r.
        destruct (Sanitize.dollar (String c m ++ q)) eqn:Hd; [exfalso | reflexivity].
        destruct (dollar_cases _ Hd) as [E0 | E0]; [discriminate |].
        simpl in E0. injection E0 as -> E0.
        destruct m; [| discriminate]. simpl in E0. subst q.
        rewrite StrFacts.app_nil_r in E.
        exact (Hnl eq_refl id Hid Er).
    + destruct m as [| c m].
      * rewrite StrFacts.app_nil_r in Ei. subst id. congruence.
      * destruct Hq as [-> | [x ->]]; [discriminate |].
        simpl in Eq. injection Eq as <- _. subst id.
        apply valid_id_char in Hid. discriminate.
  - intros id Hid ->. split.
    + apply slots_only; [exact Hty |]. apply slot_uri_match; [exact Hid | reflexivity].
    + apply slots_only; [exact Hty |]. apply slot_url_match_nl; assumption.
Qed.

Lemma malformed_id_no_match_witness :
  (In "album" types /\ scheme "" /\ intl_seg "" /\ valid_id "abc" = false)
  /\ all_none (regex_input_for_urls
               ("" ++ "open.spotify.com" ++ "" ++ "/" ++ "album" ++ "/" ++ "abc" ++ "?si=x"))
     = true.
Proof.
  split.
  - split; [simpl; auto | split; [left; reflexivity | split; [left; reflexivity | reflexivity]]].
  - refine (proj1 (proj2 (malformed_id_no_match "album" "abc" "" "" "?si=x" _ _ _ _)) _ _ _).
    + simpl; auto.
    + left; reflexivity.
    + left; reflexivity.
    + reflexivity.
    + reflexivity.
    + right. exists "si=x". reflexivity.
    + intros E. discriminate.
Defined.

(** [C6] counterexample: an identifier part of 23 characters, a valid id
    and a newline, still matches, in the URI and in the URL form *)
Lemma newline_id_matches :
  valid_id (id0 ++ String "010" "") = false
  /\ regex_input_for_urls ("spotify:track:" ++ id0 ++ String "010" "")
     = (Some id0, None, None, None, None, None)
  /\ regex_input_for_urls ("https://open.spotify.com/track/" ++ id0 ++ String "010" "")
     = (Some id0, None, None, None, None, None).
Proof. split; [| split]; reflexivity. Qed.

(** [C10] For every resource type and 22-character alphanumeric id, the
    URL [open.spotify.com/<type>/<id>] gives the same result with the
    scheme [http://], with no scheme, and with [https://]; that result
    fills exactly the slot of the type, with the id. *)
Theorem url_scheme_optional (ty id p : string) :
  In ty types -> valid_id id = true -> scheme p ->
  regex_input_for_urls (p ++ "open.spotify.com/" ++ ty ++ "/" ++ id)
  = regex_input_for_urls ("https://open.spotify.com/" ++ ty ++ "/" ++ id)
  /\ slots (regex_input_for_urls (p ++ "open.spotify.com/" ++ ty ++ "/" ++ id))
     = only_slot ty id.
Proof.
  intros Hty Hid Hp.
  pose proof (regex_scheme p ("/" ++ ty ++ "/" ++ id) Hp) as E1.
  pose proof (regex_scheme "https://" ("/" ++ ty ++ "/" ++ id)
                (or_intror (or_intror eq_refl))) as E2.
  change ("open.spotify.com/" ++ ty ++ "/" ++ id)
    with ("open.spotify.com" ++ "/" ++ ty ++ "/" ++ id).
  change ("https://open.spotify.com/" ++ ty ++ "/" ++ id)
    with ("https://" ++ "open.spotify.com" ++ "/" ++ ty ++ "/" ++ id).
  split; [congruence |].
  apply slots_only; [exact Hty |].
  pose proof (slot_url_match ty id p "" "" (ty_ok_types ty Hty) Hid Hp
                (or_introl eq_refl) (or_introl eq_refl)) as H.
  rewrite StrFacts.app_nil_r in H. exact H.
Qed.

Lemma url_scheme_optional_witness :
  (In "playlist" types /\ valid_id id0 = true /\ scheme "http://")
  /\ regex_input_for_urls ("http://" ++ "open.spotify.com/" ++ "playlist" ++ "/" ++ id0)
     = regex_input_for_urls ("https://open.spotify.com/" ++ "playlist" ++ "/" ++ id0).
Proof.
  split.
  - split; [simpl; auto | split; [reflexivity | right; left; reflexivity]].
  - refine (proj1 (url_scheme_optional "playlist" id0 "http://" _ _ _)).
    + simpl; auto.
    + reflexivity.
    + right; left; reflexivity.
Defined.

End UrlFacts.

(* ------------------------------------------------------------------ *)
(** ** [fmt_seconds]: the clock layout and negative inputs *)

Module FmtClockFacts.
Local Open Scope Z_scope.

Lemma two_digits_table :
  forallb (fun k => String.eqb (Py.zfill 2 (Py.str_int k)) (two_digits k))
          (map Z.of_nat (seq 0 100)) = true.
Proof. vm_compute. reflexivity. Qed.

Lemma zfill_two_digits (k : Z) :
  0 <= k < 100 -> Py.zfill 2 (Py.str_int k) = two_digits k.
Proof.
  intros Hk. pose proof two_digits_table as T. rewrite forallb_forall in T.
  apply String.eqb_eq, T, in_map_iff. exists (Z.to_nat k).
  split; [lia | apply in_seq; lia].
Qed.

Lemma sub_mod_div (n : Z) : (n - n mod 60) / 60 = n / 60.
Proof.
  rewrite Z.mod_eq by lia.
  replace (n - (n - 60 * (n / 60))) with (n / 60 * 60) by ring.
  apply Z.div_mul. lia.
Qed.

(** the hours, minutes and seconds that [fmt_seconds] computes *)
Lemma fmt_seconds_fields (secs : Q) :
  let n := Qfloor secs in
  fmt_seconds secs =
  let s := n mod 60 in
  let m := (n / 60) mod 60 in
  let h := n / 3600 in
  if (h =? 0) && (m =? 0) && (s =? 0) then "0s"
  else if (h =? 0) && (m =? 0) then Py.zfill 2 (Py.str_int s ++ "s")
  else if h =? 0 then Py.zfill 2 (Py.str_int m) ++ ":" ++ Py.zfill 2 (Py.str_int s)
  else Py.zfill 2 (Py.str_int h) ++ ":" ++ Py.zfill 2 (Py.str_int m) ++ ":"
         ++ Py.zfill 2 (Py.str_int s).
Proof.
  intros n. unfold fmt_seconds. fold n.
  rewrite !sub_mod_div, Z.div_div by lia. reflexivity.
Qed.

(** For a floored value [n] with [60 <= n < 360000] (at least a minute,
    fewer than 100 hours), [fmt_seconds] gives [MM:SS] below an hour and
    [HH:MM:SS] from an hour on, each field two digits, with
    [HH = n / 3600], [MM = (n / 60) mod 60] and [SS = n mod 60]. *)
Theorem fmt_seconds_clock (secs : Q) :
  60 <= Qfloor secs < 360000 ->
  fmt_seconds secs =
  (if Qfloor secs <? 3600 then "" else two_digits (Qfloor secs / 3600) ++ ":")
  ++ two_digits ((Qfloor secs / 60) mod 60) ++ ":" ++ two_digits (Qfloor secs mod 60).
Proof.
  intros Hn. rewrite fmt_seconds_fields. set (n := Qfloor secs) in *. cbv zeta.
  assert (Hs : 0 <= n mod 60 < 60) by (apply Z.mod_pos_bound; lia).
  assert (Hm : 0 <= (n / 60) mod 60 < 60) by (apply Z.mod_pos_bound; lia).
  rewrite (zfill_two_digits (n mod 60)), (zfill_two_digits ((n / 60) mod 60)) by lia.
  destruct (Z.ltb_spec n 3600) as [Hlt | Hge].
  - assert (Hh : n / 3600 = 0) by (apply Z.div_small; lia).
    assert (Hm' : (n / 60) mod 60 = n / 60) by (apply Z.mod_small; split;
      [apply Z.div_pos; lia | apply Z.div_lt_upper_bound; lia]).
    assert (Hm0 : n / 60 <> 0) by (intros E; pose proof (Z.div_le_lower_bound n 60 1); lia).
    rewrite Hh, Hm'. rewrite Hm' in *.
    destruct (Z.eqb_spec (n / 60) 0); [contradiction |].
    reflexivity.
  - assert (Hh : 1 <= n / 3600 < 100)
      by (split; [apply Z.div_le_lower_bound | apply Z.div_lt_upper_bound]; lia).
    destruct (Z.eqb_spec (n / 3600) 0); [lia |].
    rewrite zfill_two_digits by lia. simpl andb. reflexivity.
Qed.

Lemma fmt_seconds_clock_witness :
  60 <= Qfloor 3725 < 360000
  /\ fmt_seconds 3725 = "01:02:05".
Proof.
  assert (H : 60 <= Qfloor 3725 < 360000)
    by (replace (Qfloor 3725) with 3725 by reflexivity; lia).
  split; [exact H |].
  rewrite (fmt_seconds_clock 3725 H). reflexivity.
Defined.

(** A negative value (after flooring) down to [-2^53] is rendered with a
    negative hours field: the result starts with ['-'] (for instance [-1]
    gives ["-1:59:59"]), since [math.floor] and [%] round towards minus
    infinity. *)
Theorem fmt_seconds_negative (secs : Q) :
  - 2 ^ 53 <= Qfloor secs -> Qfloor secs < 0 -> exists t, fmt_seconds secs = String "-" t.
Proof.
  intros _ Hn. rewrite fmt_seconds_fields. set (n := Qfloor secs) in *. cbv zeta.
  assert (Hh : n / 3600 < 0) by (apply Z.div_lt_upper_bound; lia).
  destruct (Z.eqb_spec (n / 3600) 0) as [E | _]; [lia |]. simpl andb.
  destruct (n / 3600) as [| p | p]; [lia | lia |].
  unfold Py.str_int. simpl Z.to_int. unfold NilEmpty.string_of_int.
  unfold Py.zfill. destruct (Nat.leb _ _).
  - eexists. reflexivity.
  - simpl. eexists. reflexivity.
Qed.

Lemma fmt_seconds_negative_witness :
  (- 2 ^ 53 <= Qfloor (-1) /\ Qfloor (-1) < 0) /\ (exists t, fmt_seconds (-1) = String "-" t)
  /\ fmt_seconds (-1) = "-1:59:59".
Proof.
  assert (H0 : - 2 ^ 53 <= Qfloor (-1)) by (vm_compute; discriminate).
  assert (H : Qfloor (-1) < 0) by (vm_compute; reflexivity).
  split; [split; [exact H0 | exact H] |
          split; [exact (fmt_seconds_negative (-1) H0 H) | vm_compute; reflexivity]].
Defined.

End FmtClockFacts.

(* ------------------------------------------------------------------ *)
(** ** [fix_filename]: what the result never holds, and its length *)

Module SanitizeSafety.
Import Sanitize SanitizeFacts.
Local Open Scope nat_scope.

Lemma marked_length (s t : string) : marked s t -> String.length t = String.length s.
Proof.
  revert t; induction s as [| a s IH]; intros [| b t] H; simpl in *; try tauto.
  destruct H as [_ H]. f_equal. auto.
Qed.

Lemma last_ok_cons (c : ascii) (x : string) : x <> "" -> last_ok (String c x) = last_ok x.
Proof. destruct x; [congruence | reflexivity]. Qed.

Lemma bad_not_letter_table :
  forallb (fun n => let c := ascii_of_nat n in
                    negb (bad_char c)
                    || negb (ci c "A" || ci c "C" || ci c "L" || ci c "N" || ci c "P"))
          (seq 0 256) = true.
Proof. vm_compute. reflexivity. Qed.

Lemma bad_not_reserved (c : ascii) (r : string) :
  bad_char c = true -> match_reserved (String c r) = None.
Proof.
  intros Hb. pose proof bad_not_letter_table as T. rewrite forallb_forall in T.
  assert (Hin : In (nat_of_ascii c) (seq 0 256))
    by (apply in_seq; pose proof (nat_ascii_bounded c); lia).
  specialize (T (nat_of_ascii c) Hin). cbv zeta in T.
  rewrite ascii_nat_embedding, Hb in T. simpl negb in T. rewrite orb_false_l in T.
  unfold match_reserved, orelse, word_alt, word_digit_alt. simpl ci_prefix.
  destruct (ci c "A"), (ci c "C"), (ci c "L"), (ci c "N"), (ci c "P");
    simpl in T; try discriminate T; reflexivity.
Qed.

Lemma ci_prefix_length (w s x : string) :
  ci_prefix w s = Some x -> String.length s = String.length w + String.length x.
Proof.
  revert s; induction w as [| u w IH]; intros s H; simpl in H.
  - inversion H. reflexivity.
  - destruct s as [| c s]; [discriminate |]. destruct (ci c u); [| discriminate].
    simpl. f_equal. auto.
Qed.

Lemma word_alt_length (w s x : string) :
  word_alt w s = Some x -> String.length s = String.length w + String.length x.
Proof.
  unfold word_alt. destruct (ci_prefix w s) eqn:E; [| discriminate].
  destruct (lookahead_ok s0); [| discriminate]. intros H; inversion H; subst.
  apply ci_prefix_length. exact E.
Qed.

Lemma word_digit_alt_length (w s x : string) :
  word_digit_alt w s = Some x -> String.length s = String.length w + S (String.length x).
Proof.
  unfold word_digit_alt. destruct (ci_prefix w s) as [[| d r] |] eqn:E; try discriminate.
  destruct (digit19 d && lookahead_ok r); [| discriminate]. intros H; inversion H; subst.
  apply ci_prefix_length in E. exact E.
Qed.

Lemma match_reserved_length (s x : string) :
  match_reserved s = Some x -> String.length x + 3 <= String.length s.
Proof.
  unfold match_reserved, orelse.
  destruct (word_alt "AUX" s) eqn:E1;
    [intros H; inversion H; subst; apply word_alt_length in E1; simpl in E1; lia |].
  destruct (word_digit_alt "COM" s) eqn:E2;
    [intros H; inversion H; subst; apply word_digit_alt_length in E2; simpl in E2; lia |].
  destruct (word_alt "CON" s) eqn:E3;
    [intros H; inversion H; subst; apply word_alt_length in E3; simpl in E3; lia |].
  destruct (word_digit_alt "LPT" s) eqn:E4;
    [intros H; inversion H; subst; apply word_digit_alt_length in E4; simpl in E4; lia |].
  destruct (word_alt "NUL" s) eqn:E5;
    [intros H; inversion H; subst; apply word_alt_length in E5; simpl in E5; lia |].
  intros H. apply word_alt_length in H. simpl in H. lia.
Qed.

(** For every name, the result of [fix_filename] holds none of the
    characters [/ \ : | < > ? *], the double quote or a control character;
    it does not start with white space; it does not end with white space
    or ['.']; and it does not start with a reserved device name ([AUX],
    [COM1]..[COM9], [CON], [LPT1]..[LPT9], [NUL], [PRN], in any case)
    followed by its end or a ['.']. *)
Theorem fix_filename_safe (name : string) :
  let out := fix_filename name in
  no_bad out = true /\ last_ok out = true /\ match_reserved out = None
  /\ (forall c t, out = String c t -> Py.is_space c = false).
Proof.
  intros out. subst out. destruct name as [| c r]; [repeat split; intros; discriminate |].
  destruct (fix_filename_cases c r) as [[t Ht] | [Ho [Hb [Hm [Hs Hd]]]]];
    rewrite ?Ht, ?Ho.
  - split; [simpl; apply fix_tail_no_bad |].
    split; [| split; [reflexivity | intros c' t' E; inversion E; reflexivity]].
    destruct (fix_tail t) as [| a b] eqn:E; [reflexivity |].
    rewrite last_ok_cons by discriminate. rewrite <- E. apply fix_tail_last_ok.
  - split; [simpl; rewrite Hb; apply fix_tail_no_bad |].
    split; [| split].
    + destruct (fix_tail r) as [| a b] eqn:E.
      * assert (r = "") as ->.
        { pose proof (marked_length _ _ (fix_tail_marked r)) as L. rewrite E in L.
          destruct r; [reflexivity | discriminate]. }
        change (dollar "") with true in Hd. rewrite andb_true_r in Hd.
        simpl. rewrite Hd. reflexivity.
      * rewrite last_ok_cons by discriminate. rewrite <- E. apply fix_tail_last_ok.
    + apply (match_reserved_marked (String c r)); [| exact Hm].
      simpl. split; [now left | apply fix_tail_marked].
    + intros c' t' E. inversion E; subst. exact Hs.
Qed.

(** [fix_filename] never makes a name longer.  When the name does not
    start with a reserved device name, the result has the same length and
    each of its characters is the one of the name or ['_']; when it does,
    the device name (with its digit) becomes a single ['_'], so the result
    is at least two characters shorter. *)
Theorem fix_filename_shape (name : string) :
  (match_reserved name = None -> marked name (fix_filename name))
  /\ (forall r, match_reserved name = Some r ->
        fix_filename name = String "_" (fix_tail r)
        /\ String.length (fix_filename name) + 2 <= String.length name)
  /\ String.length (fix_filename name) <= String.length name.
Proof.
  assert (A : match_reserved name = None -> marked name (fix_filename name)).
  { intros Hm. destruct name as [| c r]; [exact I |].
    unfold fix_filename. rewrite Hm.
    destruct (bad_char c); [| destruct (Py.is_space c);
                               [| destruct (_ && _)]];
      simpl; (split; [auto | apply fix_tail_marked]). }
  assert (B : forall r, match_reserved name = Some r ->
        fix_filename name = String "_" (fix_tail r)
        /\ String.length (fix_filename name) + 2 <= String.length name).
  { intros r Hm. destruct name as [| c x]; [discriminate |].
    assert (Ho : fix_filename (String c x) = String "_" (fix_tail r)).
    { unfold fix_filename. destruct (bad_char c) eqn:Hb.
      - rewrite bad_not_reserved in Hm by exact Hb. discriminate.
      - rewrite Hm. reflexivity. }
    split; [exact Ho |]. rewrite Ho.
    pose proof (match_reserved_length _ _ Hm).
    pose proof (marked_length _ _ (fix_tail_marked r)). simpl in *. lia. }
  split; [exact A | split; [exact B |]].
  destruct (match_reserved name) as [r |] eqn:E.
  - destruct (B r eq_refl). lia.
  - rewrite (marked_length _ _ (A eq_refl)). lia.
Qed.

End SanitizeSafety.

(* ------------------------------------------------------------------ *)
(** ** [regex_input_for_urls]: what a filled slot says about the input *)

Module UrlSoundness.
Import Urls UrlFacts.

(** Whenever [regex_input_for_urls] returns an id in some slot, that id
    is 22 characters of [0-9a-zA-Z], and the input is, for the type of
    that slot, either [spotify:<type>:<id>] with nothing or a single
    newline after it, or an accepted URL ([https://], [http://] or no
    scheme, [open.spotify.com], an optional [/intl-xx] segment,
    [/<type>/<id>]) followed by nothing, a single newline, or a text
    starting with [?si=]. *)
Theorem regex_result_sound (s id : string) :
  In (Some id) (slots (regex_input_for_urls s)) ->
  valid_id id = true
  /\ exists ty, In ty types
     /\ ((exists q, s = "spotify:" ++ ty ++ ":" ++ id ++ q
                    /\ (q = "" \/ q = String "010" ""))
         \/ (exists p w q, scheme p /\ intl_seg w
               /\ s = p ++ "open.spotify.com" ++ w ++ "/" ++ ty ++ "/" ++ id ++ q
               /\ (q = "" \/ q = String "010" "" \/ exists x, q = "?si=" ++ x))).
Proof.
  rewrite slots_regex_input_for_urls. intros H. apply in_map_iff in H.
  destruct H as [ty [Hs Hty]].
  destruct (slot_shape ty s id Hs)
    as [[q [E [Hv Hq]]] | [p [w [q [Hp [Hw [E [Hv Hq]]]]]]]];
    (split; [exact Hv | exists ty; split; [exact Hty |]]).
  - left. exists q. split; [exact E | apply dollar_cases; exact Hq].
  - right. exists p, w, q. repeat (split; [assumption |]). apply tail_ok_cases. exact Hq.
Qed.

Lemma regex_result_sound_witness :
  In (Some id0) (slots (regex_input_for_urls ("spotify:show:" ++ id0)))
  /\ valid_id id0 = true.
Proof.
  assert (H : In (Some id0) (slots (regex_input_for_urls ("spotify:show:" ++ id0))))
    by (vm_compute; tauto).
  split; [exact H | exact (proj1 (regex_result_sound _ _ H))].
Defined.

End UrlSoundness.

(* ------------------------------------------------------------------ *)
(** ** The archive helpers: reads, errors and the directory manifest *)

Module ArchiveMore.
Import Archive ArchiveFacts.
Local Open Scope nat_scope.

(** [get_directory_song_ids] unfolded: the first fields of the lines of
    the manifest when it is a file and directory archives are enabled,
    [[]] otherwise *)
Lemma get_directory_song_ids_eq (cfg : config) (p : string) (st : fs) :
  get_directory_song_ids cfg p st
  = (Ok (match st (joinpath p ".song_ids") with
         | Some (File c) => if disable_directory_archives cfg then [] else ids_of c
         | _ => []
         end), st).
Proof.
  unfold get_directory_song_ids, is_file, read_file, bind, get, ret.
  destruct (st (joinpath p ".song_ids")) as [[c |] |] eqn:E; simpl;
    destruct (disable_directory_archives cfg); simpl; rewrite ?E; reflexivity.
Qed.

(** With directory archives enabled and the manifest an existing file
    that is empty or ends with a newline, [add_to_directory_song_ids]
    appends one record line to it and changes nothing else, and a
    following [get_directory_song_ids] returns the first fields of the old
    lines followed by the new id (the record fields hold no line break and
    the id is a nonempty string without white space). *)
Theorem directory_append_then_read (cfg : config) (st : fs)
  (now p song_id filename author_name song_name c : string) :
  disable_directory_archives cfg = false ->
  st (joinpath p ".song_ids") = Some (File c) ->
  (c = "" \/ exists a, c = a ++ String "010" "") ->
  song_id <> "" -> no_space song_id = true ->
  one_line now = true -> one_line filename = true -> one_line author_name = true ->
  one_line song_name = true ->
  let st' := update st (joinpath p ".song_ids")
               (File (c ++ record_line song_id now author_name song_name filename)) in
  add_to_directory_song_ids cfg now p song_id filename author_name song_name st
  = (Ok tt, st')
  /\ get_directory_song_ids cfg p st' = (Ok (ids_of c ++ [song_id])%list, st').
Proof.
  intros Hd Hm Hc Hne Hsp Hn Hf Ha Hs st'.
  assert (Hid : one_line song_id = true).
  { clear -Hsp. induction song_id as [| x i IH]; [reflexivity |].
    simpl in *. apply andb_prop in Hsp. destruct Hsp as [Hx Hi].
    rewrite (IH Hi), andb_true_r. apply negb_true_iff in Hx. unfold Py.is_space in Hx.
    destruct (Ascii.eqb_spec x "010") as [-> | _]; [discriminate |].
    destruct (Ascii.eqb_spec x "013") as [-> | _]; [discriminate | reflexivity]. }
  split.
  - unfold add_to_directory_song_ids, append_file, bind, get, put.
    rewrite Hd, Hm. reflexivity.
  - rewrite get_directory_song_ids_eq. subst st'. rewrite update_eq, Hd.
    f_equal. f_equal. unfold ids_of.
    rewrite readlines_app by exact Hc. rewrite map_app.
    fold (ids_of c) (ids_of (record_line song_id now author_name song_name filename)).
    rewrite record_line_one, record_line_id by assumption. reflexivity.
Qed.

Lemma directory_append_then_read_witness :
  get_directory_song_ids cfg0 "d"
    (update (update empty_fs "d/.song_ids" (File "")) "d/.song_ids"
       (File ("" ++ record_line "abc" "t" "au" "nm" "f")))
  = (Ok ["abc"], update (update empty_fs "d/.song_ids" (File "")) "d/.song_ids"
                   (File ("" ++ record_line "abc" "t" "au" "nm" "f"))).
Proof.
  exact (proj2 (directory_append_then_read cfg0 (update empty_fs "d/.song_ids" (File ""))
                  "t" "d" "abc" "f" "au" "nm" "" eq_refl eq_refl (or_introl eq_refl)
                  ltac:(discriminate) eq_refl eq_refl eq_refl eq_refl eq_refl)).
Defined.

Lemma manifest_not_download_path (p : string) : joinpath p ".song_ids" <> p.
Proof.
  intros E. pose proof (joinpath_longer p ".song_ids") as L.
  rewrite E in L. assert (".song_ids" <> "") by discriminate. specialize (L H). lia.
Qed.

(** When directory archives are enabled and [create_download_directory]
    succeeds, the download path is a directory and the manifest is a file:
    an existing manifest file keeps its contents (it is never truncated)
    and a missing one is created empty.  When the manifest path is a
    directory, the call does not succeed. *)
Theorem create_download_directory_manifest (cfg : config) (p : string) (st : fs) :
  disable_directory_archives cfg = false ->
  let m := joinpath p ".song_ids" in
  (fst (create_download_directory cfg p st) = Ok tt ->
   snd (create_download_directory cfg p st) p = Some Dir
   /\ (forall c, st m = Some (File c) -> snd (create_download_directory cfg p st) m = Some (File c))
   /\ (st m = None -> snd (create_download_directory cfg p st) m = Some (File "")))
  /\ (st m = Some Dir -> fst (create_download_directory cfg p st) <> Ok tt).
Proof.
  intros Hd m.
  assert (Hfr : forall st1, snd (mkdir_parents p st1) m = st1 m)
    by (intros; apply mkdir_parents_frame, joinpath_longer; discriminate).
  pose proof (mkdir_parents_ok p st) as Hok. specialize (Hfr st).
  pose proof (manifest_not_download_path p) as Hmp. fold m in Hmp.
  unfold create_download_directory. fold m.
  unfold bind. cbv beta. destruct (mkdir_parents p st) as [[u | e] st1] eqn:Em; simpl in Hok, Hfr.
  - rewrite Hd. unfold is_file, get, ret, write_file, put, raise, bind.
    destruct (st1 m) as [[c |] |] eqn:E1; simpl; rewrite ?E1.
    + split; [| intros H; congruence].
      intros _. split; [simpl; apply Hok; destruct u; reflexivity |].
      split; [intros c' H; simpl; congruence | simpl; congruence].
    + split; [intros H; discriminate | intros _ H; discriminate].
    + split; [| intros H; congruence].
      intros _. split.
      * simpl. rewrite update_neq by (intros E; apply Hmp; symmetry; exact E).
        apply Hok; destruct u; reflexivity.
      * split; [simpl; congruence | intros _; apply update_eq].
  - split; [intros H; discriminate | intros _ H; discriminate].
Qed.

Lemma create_download_directory_manifest_witness :
  disable_directory_archives cfg0 = false
  /\ fst (create_download_directory cfg0 "a/b" empty_fs) = Ok tt
  /\ snd (create_download_directory cfg0 "a/b" empty_fs) "a/b/.song_ids" = Some (File "").
Proof.
  assert (H1 : disable_directory_archives cfg0 = false) by reflexivity.
  assert (H2 : fst (create_download_directory cfg0 "a/b" empty_fs) = Ok tt) by reflexivity.
  split; [exact H1 | split; [exact H2 |]].
  exact (proj2 (proj2 (proj1 (create_download_directory_manifest cfg0 "a/b" empty_fs H1) H2))
           eq_refl).
Defined.

Lemma mkdir_all_dirs (qs rest : list string) (st : fs) :
  (forall q, In q qs -> st q = Some Dir) -> mkdir_all (qs ++ rest) st = mkdir_all rest st.
Proof.
  induction qs as [| q qs IH]; intros H; [reflexivity |].
  simpl app. rewrite mkdir_all_cons, (H q (or_introl eq_refl)).
  apply IH. intros q' Hq'. apply H. now right.
Qed.

(** When the download path is an existing file and its parent directories
    exist, [create_download_directory] raises [FileExistsError] (from
    [mkdir(parents=True, exist_ok=True)]) and changes nothing; in
    particular no manifest is created. *)
Theorem create_download_directory_on_file (cfg : config) (p c : string) (st : fs) :
  st p = Some (File c) ->
  (forall q, In q (parent_prefixes "" p) -> st q = Some Dir) ->
  create_download_directory cfg p st = (Err FileExistsError, st).
Proof.
  intros Hp Hq. unfold create_download_directory, mkdir_parents, bind at 1.
  rewrite mkdir_all_dirs by exact Hq. rewrite mkdir_all_cons, Hp. reflexivity.
Qed.

Lemma create_download_directory_on_file_witness :
  create_download_directory cfg0 "a/b" (update (update empty_fs "a" Dir) "a/b" (File "x"))
  = (Err FileExistsError, update (update empty_fs "a" Dir) "a/b" (File "x")).
Proof.
  apply (create_download_directory_on_file cfg0 "a/b" "x"); [reflexivity |].
  intros q Hq. simpl in Hq. destruct Hq as [<- | []]. reflexivity.
Defined.

End ArchiveMore.

(* ------------------------------------------------------------------ *)
(** ** [split_input] and [conv_artist_format] *)

Module SelectionFacts.
Import Selection.
Local Open Scope Z_scope.

Lemma space_char (d : ascii) :
  Py.is_space d = true ->
  is_digit d = false /\ Ascii.eqb d "_" = false /\ Ascii.eqb "-" d = false.
Proof.
  intros H. destruct d as [[] [] [] [] [] [] [] []]; vm_compute in H |- *;
    first [discriminate | repeat split].
Qed.

Lemma digit_char (d : ascii) :
  is_digit d = true ->
  Py.is_space d = false /\ Ascii.eqb d "+" = false /\ Ascii.eqb d "-" = false
  /\ Ascii.eqb "-" d = false.
Proof.
  intros H. destruct d as [[] [] [] [] [] [] [] []]; vm_compute in H |- *;
    first [discriminate | repeat split].
Qed.

Lemma contains_cons (c a : ascii) (s : string) :
  contains c (String a s) = Ascii.eqb c a || contains c s.
Proof. reflexivity. Qed.

Lemma contains_app (c : ascii) (a b : string) :
  contains c (a ++ b) = contains c a || contains c b.
Proof.
  induction a as [| x a IH]; [reflexivity |].
  change (String x a ++ b)%string with (String x (a ++ b)).
  rewrite !contains_cons, IH, orb_assoc. reflexivity.
Qed.

Lemma contains_sep (c : ascii) (x t : string) : contains c (x ++ String c t) = true.
Proof. rewrite contains_app, contains_cons, Ascii.eqb_refl, orb_true_r. reflexivity. Qed.

Lemma all_chars_no_dash (p : ascii -> bool) (s : string) :
  (forall d, p d = true -> Ascii.eqb "-" d = false) ->
  all_chars p s = true -> contains "-" s = false.
Proof.
  intros Hp. induction s as [| d s IH]; [reflexivity |].
  simpl. intros H. apply andb_prop in H. destruct H as [H1 H2].
  rewrite contains_cons, (Hp d H1), (IH H2). reflexivity.
Qed.

Lemma lstrip_spaces_app (w s : string) :
  all_chars Py.is_space w = true -> Py.lstrip (w ++ s) = Py.lstrip s.
Proof.
  induction w as [| d w IH]; [reflexivity |].
  simpl. intros H. apply andb_prop in H. destruct H as [H1 H2].
  rewrite H1. apply IH, H2.
Qed.

Lemma lstrip_spaces (w : string) : all_chars Py.is_space w = true -> Py.lstrip w = "".
Proof.
  intros H. rewrite <- (StrFacts.app_nil_r w), lstrip_spaces_app by exact H. reflexivity.
Qed.

Lemma split_on_cons_ex (c : ascii) (s : string) : exists x xs, split_on c s = x :: xs.
Proof.
  induction s as [| a s IH]; [simpl; eauto |].
  simpl. destruct (Ascii.eqb a c); [eauto |].
  destruct IH as [x [xs ->]]. eauto.
Qed.

Lemma split_on_prefix (c : ascii) (t s : string) :
  contains c t = false ->
  split_on c (t ++ s) = match split_on c s with
                        | x :: xs => (t ++ x)%string :: xs
                        | [] => [t]
                        end.
Proof.
  induction t as [| a t IH]; intros H.
  - simpl. destruct (split_on_cons_ex c s) as [x [xs ->]]. reflexivity.
  - rewrite contains_cons in H. apply orb_false_iff in H. destruct H as [H1 H2].
    simpl. rewrite Ascii.eqb_sym, H1, (IH H2).
    destruct (split_on_cons_ex c s) as [x [xs ->]]. reflexivity.
Qed.

Lemma split_on_free (c : ascii) (t : string) : contains c t = false -> split_on c t = [t].
Proof.
  intros H. rewrite <- (StrFacts.app_nil_r t), split_on_prefix by exact H.
  reflexivity.
Qed.

Lemma split_on_sep (c : ascii) (t r : string) :
  contains c t = false -> split_on c (t ++ String c r) = t :: split_on c r.
Proof.
  intros H. rewrite split_on_prefix by exact H. simpl. rewrite Ascii.eqb_refl.
  rewrite StrFacts.app_nil_r. reflexivity.
Qed.

Lemma split_on_two (c : ascii) (s : string) :
  contains c s = true -> exists x y ys, split_on c s = x :: y :: ys.
Proof.
  induction s as [| a s IH]; [discriminate |].
  rewrite contains_cons. simpl. rewrite Ascii.eqb_sym.
  destruct (Ascii.eqb a c).
  - intros _. destruct (split_on_cons_ex c s) as [x [xs ->]]. eauto.
  - simpl. intros H. destruct (IH H) as [x [y [ys ->]]]. eauto.
Qed.

Lemma contains_join (c : ascii) (sep : string) (l : list string) :
  contains c sep = false -> Forall (fun y => contains c y = false) l ->
  contains c (join sep l) = false.
Proof.
  intros Hs Hl. induction Hl as [| x l Hx Hl IH]; [reflexivity |].
  destruct l as [| y l]; [exact Hx |].
  change (join sep (x :: y :: l)) with (x ++ sep ++ join sep (y :: l))%string.
  rewrite !contains_app, Hx, Hs, IH. reflexivity.
Qed.

Lemma split_on_join (c : ascii) (t x : string) (l : list string) :
  contains c t = false -> Forall (fun y => contains c y = false) (x :: l) ->
  split_on c (join (String c t) (x :: l)) = x :: map (fun y => t ++ y)%string l.
Proof.
  intros Ht. revert x. induction l as [| y l IH]; intros x Hl; inversion Hl as [| ? ? Hx Hl']; subst.
  - apply split_on_free, Hx.
  - change (join (String c t) (x :: y :: l))
      with (x ++ String c (t ++ join (String c t) (y :: l)))%string.
    rewrite split_on_sep by exact Hx. rewrite split_on_prefix by exact Ht.
    rewrite (IH y Hl'). reflexivity.
Qed.

Lemma digits_us_run (acc : Z) (n : nat) (r w : string) :
  all_chars is_digit r = true ->
  match w with
  | String d _ => is_digit d = false /\ Ascii.eqb d "_" = false
  | EmptyString => True
  end ->
  digits_us acc n (r ++ w) = (decimal_value acc r, (n + String.length r)%nat, w).
Proof.
  revert acc n. induction r as [| c r IH]; intros acc n Hr Hw.
  - rewrite Nat.add_0_r. simpl. destruct w as [| d w]; [reflexivity |].
    destruct Hw as [H1 H2]. simpl. rewrite H1, H2. reflexivity.
  - simpl in Hr. apply andb_prop in Hr. destruct Hr as [H1 H2].
    simpl. rewrite H1, (IH _ _ H2 Hw), Nat.add_succ_r. reflexivity.
Qed.

Lemma py_int_decimal (w1 a w2 : string) :
  all_chars Py.is_space w1 = true -> all_chars Py.is_space w2 = true ->
  a <> "" -> all_chars is_digit a = true -> (String.length a <= max_str_digits)%nat ->
  py_int (w1 ++ a ++ w2) = Ret (decimal_value 0 a).
Proof.
  intros H1 H2 Ha Hd Hl. destruct a as [| c r]; [congruence |].
  simpl in Hd. apply andb_prop in Hd. destruct Hd as [Hc Hr].
  destruct (digit_char c Hc) as [Hs [Hp [Hm _]]].
  unfold py_int. rewrite lstrip_spaces_app by exact H1.
  change (String c r ++ w2)%string with (String c (r ++ w2)).
  simpl Py.lstrip. rewrite Hs, Hp, Hm, Hc.
  rewrite digits_us_run by
    (exact Hr || (destruct w2 as [| d w2]; [exact I |];
                  simpl in H2; apply andb_prop in H2;
                  destruct (space_char d (proj1 H2)) as [? [? _]]; split; assumption)).
  rewrite lstrip_spaces by exact H2.
  simpl in Hl. replace (max_str_digits <? 1 + String.length r)%nat with false
    by (symmetry; apply Nat.ltb_ge; simpl; lia).
  reflexivity.
Qed.

Lemma py_int_blank (w : string) : all_chars Py.is_space w = true -> py_int w = Raise ValueError.
Proof. intros H. unfold py_int. rewrite lstrip_spaces by exact H. reflexivity. Qed.

Lemma py_int_err (s : string) (e : exn) : py_int s = Raise e -> e = ValueError.
Proof.
  unfold py_int. destruct (Py.lstrip s) as [| c r]; [congruence |].
  destruct (Ascii.eqb c "+"), (Ascii.eqb c "-");
    repeat match goal with
           | |- context [match ?x with _ => _ end] => destruct x
           end; congruence.
Qed.

(** [split_input] never raises [IndexError]: once the selection holds a
    ['-'], [selection.split('-')] has at least two items, so [[0]] and
    [[1]] exist; the only error it raises is the [ValueError] of [int]. *)
Theorem split_input_no_index_error (selection : string) :
  split_input selection <> Raise IndexError.
Proof.
  unfold split_input. destruct (contains "-" selection) eqn:H; [| discriminate].
  destruct (split_on_two "-" selection H) as [x [y [ys ->]]]. simpl.
  destruct (py_int x) as [lo | e] eqn:Ex.
  - destruct (py_int y) as [hi | e] eqn:Ey; [discriminate |].
    apply py_int_err in Ey. congruence.
  - apply py_int_err in Ex. congruence.
Qed.

(** A selection of the form [a-b], where [a] and [b] are nonempty runs of
    decimal digits (at most 4300 each) with white space around them, gives
    the integers from [a] to [b] inclusive, as [int]s (empty when
    [b < a]). *)
Theorem split_input_range (w1 a w2 w3 b w4 : string) :
  all_chars Py.is_space w1 = true -> all_chars Py.is_space w2 = true ->
  all_chars Py.is_space w3 = true -> all_chars Py.is_space w4 = true ->
  a <> "" -> all_chars is_digit a = true -> (String.length a <= max_str_digits)%nat ->
  b <> "" -> all_chars is_digit b = true -> (String.length b <= max_str_digits)%nat ->
  split_input ((w1 ++ a ++ w2) ++ "-" ++ (w3 ++ b ++ w4))
  = Ret (map IntItem (zrange (decimal_value 0 a) (decimal_value 0 b + 1))).
Proof.
  intros H1 H2 H3 H4 Ha Hda Hla Hb Hdb Hlb.
  assert (Hs : forall d, Py.is_space d = true -> Ascii.eqb "-" d = false)
    by (intros d Hd; apply (space_char d Hd)).
  assert (Hg : forall d, is_digit d = true -> Ascii.eqb "-" d = false)
    by (intros d Hd; apply (digit_char d Hd)).
  assert (Hx : contains "-" (w1 ++ a ++ w2) = false)
    by (rewrite !contains_app, (all_chars_no_dash _ w1 Hs H1), (all_chars_no_dash _ a Hg Hda),
          (all_chars_no_dash _ w2 Hs H2); reflexivity).
  assert (Hy : contains "-" (w3 ++ b ++ w4) = false)
    by (rewrite !contains_app, (all_chars_no_dash _ w3 Hs H3), (all_chars_no_dash _ b Hg Hdb),
          (all_chars_no_dash _ w4 Hs H4); reflexivity).
  unfold split_input. cbn [append].
  rewrite contains_sep, split_on_sep, (split_on_free _ _ Hy) by exact Hx. simpl nth_error. cbv iota beta.
  rewrite (py_int_decimal w1 a w2), (py_int_decimal w3 b w4) by assumption.
  reflexivity.
Qed.

Lemma split_input_range_witness :
  split_input ((" " ++ "12" ++ "") ++ "-" ++ ("" ++ "14" ++ " "))
  = Ret [IntItem 12; IntItem 13; IntItem 14].
Proof.
  exact (split_input_range " " "12" "" "" "14" " " eq_refl eq_refl eq_refl eq_refl
           ltac:(discriminate) eq_refl ltac:(unfold max_str_digits; simpl; lia)
           ltac:(discriminate) eq_refl ltac:(unfold max_str_digits; simpl; lia)).
Defined.

(** Only the first two ['-']-separated pieces of a selection are read:
    whatever follows a second ['-'] is ignored. *)
Theorem split_input_extra_dash (x y z : string) :
  contains "-" x = false -> contains "-" y = false ->
  split_input (x ++ "-" ++ y ++ "-" ++ z) = split_input (x ++ "-" ++ y).
Proof.
  intros Hx Hy. unfold split_input. cbn [append].
  rewrite !contains_sep, !split_on_sep by assumption.
  rewrite (split_on_free _ _ Hy). reflexivity.
Qed.

Lemma split_input_extra_dash_witness :
  split_input ("1" ++ "-" ++ "2" ++ "-" ++ "9") = Ret [IntItem 1; IntItem 2].
Proof.
  rewrite (split_input_extra_dash "1" "2" "9" eq_refl eq_refl). reflexivity.
Defined.

(** A range selection one of whose two ends is empty or white space only
    raises [ValueError]; in particular a selection that starts with ['-'],
    such as ["-5"], is an error and not a negative number. *)
Theorem split_input_blank_end (x y : string) :
  contains "-" x = false -> contains "-" y = false ->
  all_chars Py.is_space x = true \/ all_chars Py.is_space y = true ->
  split_input (x ++ "-" ++ y) = Raise ValueError.
Proof.
  intros Hx Hy Hb. unfold split_input. cbn [append].
  rewrite contains_sep, split_on_sep, (split_on_free _ _ Hy) by exact Hx. simpl nth_error. cbv iota beta.
  destruct Hb as [Hb | Hb].
  - rewrite (py_int_blank x Hb). reflexivity.
  - destruct (py_int x) as [lo | e] eqn:E.
    + rewrite (py_int_blank y Hb). reflexivity.
    + apply py_int_err in E. subst. reflexivity.
Qed.

Lemma split_input_blank_end_witness : split_input ("" ++ "-" ++ "5") = Raise ValueError.
Proof. exact (split_input_blank_end "" "5" eq_refl eq_refl (or_introl eq_refl)). Defined.

(** A nonempty list of names without [','] and ['-'], joined by [","] or
    formatted by [conv_artist_format] (joined by [", "]), is read back by
    [split_input] as the list of the names stripped of surrounding white
    space, as [str]s. *)
Theorem split_input_names (l : list string) :
  l <> [] ->
  Forall (fun x => contains "," x = false /\ contains "-" x = false) l ->
  split_input (join "," l) = Ret (map (fun x => StrItem (Py.strip x)) l)
  /\ split_input (conv_artist_format l) = Ret (map (fun x => StrItem (Py.strip x)) l).
Proof.
  intros Hne Hl.
  assert (Hc : Forall (fun y => contains "," y = false) l)
    by (apply (Forall_impl _ (fun y H => proj1 H) Hl)).
  assert (Hd : Forall (fun y => contains "-" y = false) l)
    by (apply (Forall_impl _ (fun y H => proj2 H) Hl)).
  destruct l as [| x l]; [congruence |].
  unfold split_input, conv_artist_format.
  rewrite !contains_join by (exact Hd || reflexivity).
  change "," with (String "," ""). change ", " with (String "," " ").
  rewrite !split_on_join by (exact Hc || reflexivity).
  split; f_equal; simpl; f_equal; rewrite map_map; apply map_ext; reflexivity.
Qed.

Lemma split_input_names_witness :
  conv_artist_format ["Simon"; " Garfunkel"] = "Simon,  Garfunkel"
  /\ split_input (conv_artist_format ["Simon"; " Garfunkel"])
     = Ret [StrItem "Simon"; StrItem "Garfunkel"].
Proof.
  split; [reflexivity |].
  exact (proj2 (split_input_names ["Simon"; " Garfunkel"] ltac:(discriminate)
                  ltac:(repeat constructor))).
Defined.

End SelectionFacts.

(* ------------------------------------------------------------------ *)
(** ** [add_to_m3u]: the playlist file after a run *)

Module PlaylistFacts.
Import Archive ArchiveFacts Playlist.

Lemma add_to_m3u_file (root dl f : string) (d : Q) (n c : string) (st : fs) :
  st (m3u_path root dl) = Some (File c) ->
  fst (add_to_m3u root dl f d n st) = Ok tt
  /\ forall q, snd (add_to_m3u root dl f d n st) q
               = if String.eqb q (m3u_path root dl)
                 then Some (File (c ++ m3u_entry (f, d, n))) else st q.
Proof.
  intros H. unfold add_to_m3u, path_exists, append_file, bind, get, ret, put.
  cbv zeta. repeat (first [rewrite H | rewrite update_eq]; cbv beta iota). split; [reflexivity |].
  intros q. unfold update; simpl. destruct (String.eqb q (m3u_path root dl)); [| reflexivity].
  unfold m3u_entry, nl. repeat progress (rewrite ?StrFacts.app_assoc; cbn [append]). reflexivity.
Qed.

Lemma add_to_m3u_none (root dl f : string) (d : Q) (n : string) (st : fs) :
  st (m3u_path root dl) = None ->
  fst (add_to_m3u root dl f d n st) = Ok tt
  /\ forall q, snd (add_to_m3u root dl f d n st) q
               = if String.eqb q (m3u_path root dl)
                 then Some (File ("#EXTM3U" ++ nl ++ nl ++ m3u_entry (f, d, n))) else st q.
Proof.
  intros H. unfold add_to_m3u, path_exists, write_file, append_file, bind, get, ret, put.
  cbv zeta. repeat (first [rewrite H | rewrite update_eq]; cbv beta iota). split; [reflexivity |].
  intros q. unfold update; simpl. destruct (String.eqb q (m3u_path root dl)); [| reflexivity].
  unfold m3u_entry, nl. repeat progress (rewrite ?StrFacts.app_assoc; cbn [append]). reflexivity.
Qed.

Lemma add_all_to_m3u_file (root dl : string) (songs : list (string * Q * string)) :
  forall (c : string) (st : fs), st (m3u_path root dl) = Some (File c) ->
  fst (add_all_to_m3u root dl songs st) = Ok tt
  /\ forall q, snd (add_all_to_m3u root dl songs st) q
               = if String.eqb q (m3u_path root dl)
                 then Some (File (c ++ fold_right (fun s acc => m3u_entry s ++ acc) "" songs))
                 else st q.
Proof.
  induction songs as [| [[f d] n] rest IH]; intros c st H.
  - split; [reflexivity |]. intros q. simpl.
    destruct (String.eqb_spec q (m3u_path root dl)) as [-> |]; [| reflexivity].
    rewrite H, StrFacts.app_nil_r. reflexivity.
  - destruct (add_to_m3u_file root dl f d n c st H) as [H1 H2].
    simpl add_all_to_m3u. unfold bind. cbv beta.
    destruct (add_to_m3u root dl f d n st) as [r st1] eqn:E. simpl in H1, H2. subst r.
    assert (H3 : st1 (m3u_path root dl) = Some (File (c ++ m3u_entry (f, d, n)))).
    { rewrite H2, String.eqb_refl. reflexivity. }
    destruct (IH _ st1 H3) as [H4 H5]. split; [exact H4 |].
    intros q. rewrite H5, H2. destruct (String.eqb q (m3u_path root dl)); [| reflexivity].
    rewrite StrFacts.app_assoc. reflexivity.
Qed.

(** Over a run, the playlist [<root>/<datetime_launch>_zotify.m3u8] gets,
    for each song in call order, the line
    [#EXTINF:<int(duration)>, <song_name>] and the line [<filename>]
    followed by an empty line: an existing playlist keeps its text in
    front, a missing one (in an existing root directory) first gets the
    header [#EXTM3U] and an empty line.  No call fails and no other path
    changes. *)
Theorem add_to_m3u_run (root dl : string) (songs : list (string * Q * string)) (st : fs) :
  let path := m3u_path root dl in
  let entries := fold_right (fun s acc => m3u_entry s ++ acc) "" songs in
  (forall c, st path = Some (File c) ->
     fst (add_all_to_m3u root dl songs st) = Ok tt
     /\ snd (add_all_to_m3u root dl songs st) path = Some (File (c ++ entries))
     /\ forall q, q <> path -> snd (add_all_to_m3u root dl songs st) q = st q)
  /\ (st path = None -> st root = Some Dir -> songs <> [] ->
     fst (add_all_to_m3u root dl songs st) = Ok tt
     /\ snd (add_all_to_m3u root dl songs st) path
        = Some (File ("#EXTM3U" ++ nl ++ nl ++ entries))
     /\ forall q, q <> path -> snd (add_all_to_m3u root dl songs st) q = st q).
Proof.
  intros path entries. split.
  - intros c H. destruct (add_all_to_m3u_file root dl songs c st H) as [H1 H2].
    split; [exact H1 |]. split.
    + rewrite H2. fold path. rewrite String.eqb_refl. reflexivity.
    + intros q Hq. rewrite H2. destruct (String.eqb_spec q (m3u_path root dl)); [subst path; congruence | reflexivity].
  - intros H _ Hne. destruct songs as [| [[f d] n] rest]; [congruence |].
    destruct (add_to_m3u_none root dl f d n st H) as [H1 H2].
    simpl add_all_to_m3u. unfold bind. cbv beta.
    destruct (add_to_m3u root dl f d n st) as [r st1] eqn:E. simpl in H1, H2. subst r.
    assert (H3 : st1 (m3u_path root dl)
                 = Some (File ("#EXTM3U" ++ nl ++ nl ++ m3u_entry (f, d, n)))).
    { rewrite H2, String.eqb_refl. reflexivity. }
    destruct (add_all_to_m3u_file root dl rest _ st1 H3) as [H4 H5].
    split; [exact H4 |]. split.
    + rewrite H5. fold path. rewrite String.eqb_refl. subst entries. simpl fold_right.
      rewrite (StrFacts.app_assoc "#EXTM3U" (nl ++ nl ++ m3u_entry (f, d, n))),
        (StrFacts.app_assoc nl (nl ++ m3u_entry (f, d, n))), (StrFacts.app_assoc nl (m3u_entry (f, d, n))).
      reflexivity.
    + intros q Hq. rewrite H5, H2. destruct (String.eqb_spec q (m3u_path root dl)); [subst path; congruence | reflexivity].
Qed.

Lemma add_to_m3u_run_witness :
  snd (add_all_to_m3u "music" "t0" [("a.ogg", 7, "A")] (update empty_fs "music" Dir))
      "music/t0_zotify.m3u8"
  = Some (File ("#EXTM3U" ++ nl ++ nl ++ "#EXTINF:7, A" ++ nl ++ "a.ogg" ++ nl ++ nl)).
Proof.
  exact (proj1 (proj2 (proj2 (add_to_m3u_run "music" "t0" [("a.ogg", 7, "A")]
                                (update empty_fs "music" Dir))
                         eq_refl eq_refl ltac:(discriminate)))).
Defined.

(** When the playlist path is a directory, the first call raises
    [IsADirectoryError] (the existence check passes, the [open] in append
    mode fails) and nothing is written. *)
Theorem add_to_m3u_on_dir (root dl f : string) (d : Q) (n : string) (st : fs) :
  st (m3u_path root dl) = Some Dir ->
  add_to_m3u root dl f d n st = (Err IsADirectoryError, st).
Proof.
  intros H. unfold add_to_m3u, path_exists, append_file, bind, get, ret, raise.
  cbv zeta. repeat (rewrite H; cbv beta iota). reflexivity.
Qed.

Lemma add_to_m3u_on_dir_witness :
  add_to_m3u "" "t0" "a.ogg" 7 "A" (update empty_fs "t0_zotify.m3u8" Dir)
  = (Err IsADirectoryError, update empty_fs "t0_zotify.m3u8" Dir).
Proof. exact (add_to_m3u_on_dir "" "t0" "a.ogg" 7 "A" _ eq_refl). Defined.

End PlaylistFacts.

(* ------------------------------------------------------------------ *)
(** ** [get_downloaded_song_duration]: where the duration is read *)

Module ProbeFacts.
Import Selection SelectionFacts Probe.

Definition num_char (c : ascii) : bool := is_digit c || Ascii.eqb c ".".

Lemma repr_byte_no_eq (q c : ascii) :
  q = "'"%char \/ q = "034"%char -> Ascii.eqb "=" c = false ->
  contains "=" (repr_byte q c) = false.
Proof.
  intros Hq Hc. destruct c as [[] [] [] [] [] [] [] []];
    destruct Hq as [-> | ->]; vm_compute in Hc |- *; first [discriminate | reflexivity].
Qed.

Lemma repr_byte_num (q c : ascii) :
  q = "'"%char \/ q = "034"%char -> num_char c = true -> repr_byte q c = String c "".
Proof.
  intros Hq Hc. destruct c as [[] [] [] [] [] [] [] []];
    destruct Hq as [-> | ->]; vm_compute in Hc |- *; first [discriminate | reflexivity].
Qed.

Lemma repr_byte_head (q c : ascii) :
  q = "'"%char \/ q = "034"%char -> num_char c = false ->
  match repr_byte q c with String h _ => negb (num_char h) | EmptyString => false end = true.
Proof.
  intros Hq Hc. destruct c as [[] [] [] [] [] [] [] []];
    destruct Hq as [-> | ->]; vm_compute in Hc |- *; first [discriminate | reflexivity].
Qed.

Lemma repr_body_app (q : ascii) (a b : string) :
  repr_body q (a ++ b) = (repr_body q a ++ repr_body q b)%string.
Proof. induction a as [| c a IH]; [reflexivity |]. simpl. rewrite IH, StrFacts.app_assoc. reflexivity. Qed.

Lemma repr_body_no_eq (q : ascii) (s : string) :
  q = "'"%char \/ q = "034"%char -> contains "=" s = false -> contains "=" (repr_body q s) = false.
Proof.
  intros Hq. induction s as [| c s IH]; [reflexivity |].
  rewrite contains_cons. intros H. apply orb_false_iff in H. destruct H as [H1 H2].
  simpl. rewrite contains_app, (repr_byte_no_eq q c Hq H1), (IH H2). reflexivity.
Qed.

Lemma repr_body_num (q : ascii) (s : string) :
  q = "'"%char \/ q = "034"%char -> all_chars num_char s = true -> repr_body q s = s.
Proof.
  intros Hq. induction s as [| c s IH]; [reflexivity |].
  simpl. intros H. apply andb_prop in H. destruct H as [H1 H2].
  rewrite (repr_byte_num q c Hq H1), (IH H2). reflexivity.
Qed.

Lemma bytes_repr_quote (b : string) :
  exists q, (q = "'"%char \/ q = "034"%char)
            /\ bytes_repr b = String "b" (String q (repr_body q b ++ String q "")).
Proof.
  unfold bytes_repr. destruct (contains "'" b && negb (contains "034" b)); eauto.
Qed.

Lemma search_duration_eq (s d : string) : search_duration s = Some d -> contains "=" s = true.
Proof.
  induction s as [| c s IH]; [discriminate |].
  cbn [search_duration]. destruct s as [| e r]; [discriminate |].
  intros H. rewrite contains_cons.
  destruct (Ascii.eqb e "=") eqn:He.
  - apply Ascii.eqb_eq in He. subst e.
    rewrite (contains_cons "=" "=" r), Ascii.eqb_refl, !orb_true_r. reflexivity.
  - rewrite andb_false_r in H. rewrite (IH H), orb_true_r. reflexivity.
Qed.

Lemma search_duration_at (u v : string) (c : ascii) :
  contains "=" u = false -> is_digit c = false -> Ascii.eqb c "=" = false ->
  search_duration (u ++ String c (String "=" v)) = Some (span_num v).
Proof.
  intros Hu Hc He. induction u as [| a u IH].
  - simpl. rewrite Hc. reflexivity.
  - rewrite contains_cons in Hu. apply orb_false_iff in Hu. destruct Hu as [H1 H2].
    change (String a u ++ String c (String "=" v))%string
      with (String a (u ++ String c (String "=" v))).
    simpl search_duration. rewrite <- (IH H2).
    destruct u as [| b u].
    + simpl. rewrite He, andb_false_r. reflexivity.
    + simpl. rewrite contains_cons in H2. apply orb_false_iff in H2.
      rewrite Ascii.eqb_sym, (proj1 H2), andb_false_r. reflexivity.
Qed.

Lemma span_num_app (d t : string) :
  all_chars num_char d = true ->
  match t with String h _ => negb (num_char h) | EmptyString => true end = true ->
  span_num (d ++ t) = d.
Proof.
  intros Hd Ht. induction d as [| c d IH].
  - destruct t as [| h t]; [reflexivity |]. simpl. unfold num_char in Ht.
    destruct (is_digit h || Ascii.eqb h "."); [discriminate | reflexivity].
  - simpl in Hd. apply andb_prop in Hd. destruct Hd as [H1 H2].
    simpl. unfold num_char in H1. rewrite H1, (IH H2). reflexivity.
Qed.

(** Whatever [ffprobe] prints, [get_downloaded_song_duration] finds no
    duration in an output without ['=']: the [re.search] gives [None] and
    [.groups()] raises [AttributeError] (the [repr] of the bytes adds no
    ['=']). *)
Theorem probe_no_equals (stdout : string) :
  contains "=" stdout = false -> get_downloaded_song_duration stdout = AttributeError.
Proof.
  intros H. unfold get_downloaded_song_duration.
  destruct (search_duration (bytes_repr stdout)) as [d |] eqn:E; [| reflexivity].
  apply search_duration_eq in E.
  destruct (bytes_repr_quote stdout) as [q [Hq Hb]]. rewrite Hb in E.
  rewrite !contains_cons, contains_app, (repr_body_no_eq q stdout Hq H), contains_cons in E.
  destruct Hq as [-> | ->]; discriminate.
Qed.

Lemma probe_no_equals_witness :
  get_downloaded_song_duration ("[FORMAT]" ++ Playlist.nl ++ "[/FORMAT]") = AttributeError.
Proof. exact (probe_no_equals ("[FORMAT]" ++ Playlist.nl ++ "[/FORMAT]") eq_refl). Defined.

(** For an output [p ++ "duration=" ++ d ++ t] where [p] holds no ['='],
    [d] is a run of digits and dots and [t] is empty or starts with
    another character (as in the [[FORMAT]] block [ffprobe] prints), the
    text read is exactly [d]: the result is that number when [float(d)]
    accepts it, and [ValueError] otherwise (an empty [d], as in
    [duration=N/A], or a run with two dots). *)
Theorem probe_duration_line (p d t : string) :
  contains "=" p = false -> all_chars num_char d = true ->
  match t with String h _ => negb (num_char h) | EmptyString => true end = true ->
  get_downloaded_song_duration (p ++ "duration=" ++ d ++ t)
  = if float_ok d then Seconds d else ValueError.
Proof.
  intros Hp Hd Ht. unfold get_downloaded_song_duration.
  destruct (bytes_repr_quote (p ++ "duration=" ++ d ++ t)) as [q [Hq Hb]]. rewrite Hb.
  rewrite !repr_body_app, (repr_body_num q d Hq Hd).
  assert (Hdur : repr_body q "duration=" = "duratio" ++ String "n" (String "=" ""))
    by (destruct Hq as [-> | ->]; reflexivity).
  rewrite Hdur.
  replace (String "b" (String q ((repr_body q p ++ ("duratio" ++ String "n" (String "=" ""))
             ++ d ++ repr_body q t) ++ String q "")))
    with ((String "b" (String q (repr_body q p ++ "duratio")))
          ++ String "n" (String "=" (d ++ (repr_body q t ++ String q ""))))
    by (repeat progress (rewrite ?StrFacts.app_assoc; cbn [append]); reflexivity).
  rewrite search_duration_at by
    (reflexivity || (rewrite !contains_cons, contains_app, (repr_body_no_eq q p Hq Hp);
                     destruct Hq as [-> | ->]; reflexivity)).
  rewrite span_num_app; [reflexivity | exact Hd |].
  destruct t as [| h t].
  - destruct Hq as [-> | ->]; reflexivity.
  - simpl in Ht |- *. pose proof (repr_byte_head q h Hq) as Hh.
    unfold num_char in *. destruct (is_digit h || Ascii.eqb h "."); [discriminate |].
    specialize (Hh eq_refl). destruct (repr_byte q h) as [| x y]; [discriminate | exact Hh].
Qed.

Lemma probe_duration_line_witness :
  get_downloaded_song_duration
    (("[FORMAT]" ++ Playlist.nl) ++ "duration=" ++ "215.373000" ++ (Playlist.nl ++ "[/FORMAT]"))
  = Seconds "215.373000".
Proof.
  exact (probe_duration_line ("[FORMAT]" ++ Playlist.nl) "215.373000" (Playlist.nl ++ "[/FORMAT]")
           eq_refl eq_refl eq_refl).
Defined.

End ProbeFacts.
